(** * HSTParser: a reader for MetaTrader history (.hst) files

    Shallow embedding of [src/hst_reader.ts] (class [HSTParser]) and the
    properties of its header decoding, record decoding and cursor
    arithmetic.

    The class keeps mutable fields and throws exceptions; an exception does
    not undo the assignments made before it.  Every method is therefore a
    function from the world before the call to an outcome (a value or a
    thrown error) together with the world after the call.  The [...Async]
    methods only wrap the synchronous ones in a promise and are not
    modelled separately. *)

From Stdlib Require Import ZArith QArith Qround List String Bool Lia.
From Stdlib Require Import Init.Byte Strings.Byte.
Import ListNotations.

Local Open Scope Z_scope.

(** ** JavaScript numbers

    Byte offsets, sizes, the file size, the header integers and the
    timestamps are integers far below 2^53, where a double is exact: they
    are [Z].  [candleNumber] is different: [getCandleAt] stores the result
    of a floating-point division in it.  The arithmetic on that one field
    is kept abstract, so that what is proved for every [num] does not
    depend on how doubles round; statements about integer record numbers
    are made at the instance [IntegerIndex]. *)

Class JsArith (num : Type) : Type := {
  of_Z : Z -> num;                  (* an integer-valued number *)
  num_add : num -> num -> num;      (* a + b *)
  num_sub : num -> num -> num;      (* a - b *)
  num_mul : num -> num -> num;      (* a * b *)
  num_ltb : num -> num -> bool      (* a < b *)
}.

Class JsDiv (num : Type) : Type := {
  num_div : num -> num -> num;      (* a / b *)
  num_floor : num -> num            (* Math.floor(a) *)
}.

(** Integer record indexes: the numbers every caller of [getNextCandle],
    [getPrevCandle] and [getCandleNumber] with an integer argument sees. *)
#[export] Instance IntegerIndex : JsArith Z := {
  of_Z := fun z => z;
  num_add := Z.add;
  num_sub := Z.sub;
  num_mul := Z.mul;
  num_ltb := Z.ltb
}.

(** Exact rational arithmetic: what doubles compute whenever the exact
    result is itself a double and no divisor is zero.  It serves to run
    [getCandleAt] on the sample files. *)
#[export] Instance ExactRational : JsArith Q := {
  of_Z := inject_Z;
  num_add := Qplus;
  num_sub := Qminus;
  num_mul := Qmult;
  num_ltb := fun a b => negb (Qle_bool b a)
}.

#[export] Instance ExactRationalDiv : JsDiv Q := {
  num_div := Qdiv;
  num_floor := fun a => inject_Z (Qfloor a)
}.

(** ** Buffers *)

Definition Buffer := list byte.

(** [Buffer.alloc(n)]: [n] zero bytes. *)
Definition Buffer_alloc (n : N) : Buffer := repeat x00 (N.to_nat n).

Definition byte_val (b : byte) : Z := Z.of_N (Byte.to_N b).

(** The unsigned value of the first four bytes, least significant first. *)
Definition uint32LE (b0 b1 b2 b3 : byte) : Z :=
  byte_val b0 + byte_val b1 * 2 ^ 8 + byte_val b2 * 2 ^ 16 + byte_val b3 * 2 ^ 24.

(** An error thrown by the parser or by the runtime underneath it. *)
Inductive error : Type :=
| CouldNotFindFile      (* "Could not find file" *)
| FileTooSmall          (* "File too small" *)
| AlreadyAtEndOfFile    (* "Already at end of file" *)
| AlreadyAtStartOfFile  (* "Already at start of file" *)
| CandleNotFound        (* "Candle not found" *)
| TypeError             (* property access or call on undefined *)
| RangeError            (* buffer or file position out of range *)
| SystemError (code : string).  (* thrown by fs: "EISDIR", "EACCES", ... *)

Inductive result (A : Type) : Type :=
| Ok (a : A)
| Throw (e : error).
Arguments Ok {A} a.
Arguments Throw {A} e.

(** [buffer.readInt32LE(0)]: two's complement, little endian; a buffer
    shorter than four bytes is a range error. *)
Definition readInt32LE (buf : Buffer) : result Z :=
  match buf with
  | b0 :: b1 :: b2 :: b3 :: _ =>
      let u := uint32LE b0 b1 b2 b3 in
      Ok (if 2 ^ 31 <=? u then u - 2 ^ 32 else u)
  | _ => Throw RangeError
  end.

(** [buffer.readDoubleLE(0)]: the binary64 value is represented by its
    eight bytes; a buffer shorter than eight bytes is a range error. *)
Definition readDoubleLE (buf : Buffer) : result (list byte) :=
  if (8 <=? List.length buf)%nat then Ok (firstn 8 buf) else Throw RangeError.

(** ** Values and candles *)

Inductive jsval : Type :=
| VDate (ms : Z)              (* new Date(ms) *)
| VDouble (bits : list byte)  (* a double, by its little-endian bytes *)
| VNumber (n : Z)             (* an integer-valued number *)
| VUndefined.

Definition Candle := list (string * jsval).

Fixpoint get_property (key : string) (c : Candle) : jsval :=
  match c with
  | [] => VUndefined
  | (k, v) :: rest => if String.eqb k key then v else get_property key rest
  end.

(** [candle.timestamp.getTime()] *)
Definition timestamp_getTime (c : Candle) : result Z :=
  match get_property "timestamp" c with
  | VDate ms => Ok ms
  | _ => Throw TypeError
  end.

(** ** The field table [parserData]

    One entry per field of a record: a constant [value], or a [size], a
    [position] inside the record and a [type] naming the decoder.  All
    four are optional in the source ([data.size || 0],
    [data.position || 0], [data.type || "undefined"]). *)

Inductive FieldType : Type := date | double | i32.

Record FieldData : Type := {
  value : option jsval;
  size : option N;
  position : option N;
  type : option FieldType
}.

Definition FieldTable := list (string * FieldData).

(** ** The parser object and its world *)

Record HSTParser (num : Type) : Type := {
  version : Z;
  symbol : string;
  period : Z;
  start : Z;                 (* a Date, as milliseconds *)
  candleNumber : num;
  fd : list byte;            (* the open file *)
  byteOffset : Z;
  candleByteSize : Z;
  filesize : Z
}.
Arguments version {num} _.
Arguments symbol {num} _.
Arguments period {num} _.
Arguments start {num} _.
Arguments candleNumber {num} _.
Arguments fd {num} _.
Arguments byteOffset {num} _.
Arguments candleByteSize {num} _.
Arguments filesize {num} _.
Arguments Build_HSTParser {num}.

(** One call of [fs.readSync]: the file position and the length asked for. *)
Record ReadEvent : Type := { read_position : Z; read_length : N }.

(** The parser together with the reads issued so far (latest last). *)
Record World (num : Type) : Type := {
  parser : HSTParser num;
  reads : list ReadEvent
}.
Arguments parser {num} _.
Arguments reads {num} _.
Arguments Build_World {num}.

(** A method body: outcome and world after it.  A [Throw] keeps the world
    reached when the exception left the method. *)
Definition M (num A : Type) : Type := World num -> result A * World num.

Definition ret {num A} (a : A) : M num A := fun w => (Ok a, w).
Definition throw {num A} (e : error) : M num A := fun w => (Throw e, w).
Definition bind {num A B} (m : M num A) (k : A -> M num B) : M num B :=
  fun w => match m w with
           | (Ok a, w') => k a w'
           | (Throw e, w') => (Throw e, w')
           end.
Definition this {num} : M num (HSTParser num) := fun w => (Ok (parser w), w).
Definition lift {num A} (r : result A) : M num A := fun w => (r, w).

Notation "x <- m ;; k" := (bind m (fun x => k))
  (at level 61, m at next level, right associativity).
Notation "m ;;; k" := (bind m (fun _ => k))
  (at level 61, right associativity).

(** Field assignments. *)
Definition set_byteOffset {num} (o : Z) : M num unit :=
  fun w =>
    let p := parser w in
    (Ok tt, Build_World
       (Build_HSTParser (version p) (symbol p) (period p) (start p)
          (candleNumber p) (fd p) o (candleByteSize p) (filesize p))
       (reads w)).

Definition set_candleNumber {num} (n : num) : M num unit :=
  fun w =>
    let p := parser w in
    (Ok tt, Build_World
       (Build_HSTParser (version p) (symbol p) (period p) (start p)
          n (fd p) (byteOffset p) (candleByteSize p) (filesize p))
       (reads w)).

(** ** File reads

    [fs.readSync(fd, buffer, 0, length, position)] copies the bytes the
    file has from [position] on, at most [length] of them, over the start
    of [buffer]; what lies past the end of the file is not written, and
    the buffer keeps its zeros there.  A negative position is not a file
    position and is reported as a range error; the parser never asks for
    one. *)
Definition file_bytes (file : list byte) (pos : Z) (len : N) : list byte :=
  firstn (N.to_nat len) (skipn (Z.to_nat pos) file).

Definition overwrite (buf got : list byte) : list byte :=
  got ++ skipn (List.length got) buf.

Definition readSync_pure (file : list byte) (buf : Buffer) (len : N) (pos : Z)
  : result Buffer :=
  if pos <? 0 then Throw RangeError
  else Ok (overwrite buf (file_bytes file pos len)).

Definition readSync {num} (buf : Buffer) (len : N) (pos : Z) : M num Buffer :=
  fun w =>
    (readSync_pure (fd (parser w)) buf len pos,
     Build_World (parser w) (reads w ++ [Build_ReadEvent pos len])).

(** ** Decoding one record *)

Definition is_defined (v : option jsval) : option jsval :=
  match v with
  | Some VUndefined => None
  | other => other
  end.

Definition or_zero (n : option N) : N :=
  match n with Some k => k | None => 0%N end.

(** [candleData[key] = v] *)
Fixpoint set_property (key : string) (v : jsval) (c : Candle) : Candle :=
  match c with
  | [] => [(key, v)]
  | (k, old) :: rest =>
      if String.eqb k key then (k, v) :: rest
      else (k, old) :: set_property key v rest
  end.

(** The table [parserFunctions], applied to the decoder name
    [data.type || "undefined"]. *)
Definition parserFunctions (version : Z) (ty : option FieldType) (buffer : Buffer)
  : result jsval :=
  match ty with
  | Some date =>
      match readInt32LE buffer with
      | Ok timestamp =>
          Ok (VDate (if version =? 400 then timestamp * 1000 else timestamp))
      | Throw e => Throw e
      end
  | Some double =>
      match readDoubleLE buffer with
      | Ok bits => Ok (VDouble bits)
      | Throw e => Throw e
      end
  | Some i32 =>
      match readInt32LE buffer with
      | Ok n => Ok (VNumber n)
      | Throw e => Throw e
      end
  | None => Ok VUndefined
  end.

Section Parser.

Context {num : Type} `{JsArith num}.

(** The table of [./parser_data], indexed by format version;
    [parserData[v]] is [undefined] for a version it does not list. *)
Variable parserData : Z -> option FieldTable.

(** The body of the [forEach] callback of [readCandle]. *)
Definition decodeEntry (candleData : Candle) (entry : string * FieldData)
  : M num Candle :=
  let (key, data) := entry in
  match is_defined (value data) with
  | Some v => ret (set_property key v candleData)
  | None =>
      p <- this ;;
      buffer <- readSync (Buffer_alloc (or_zero (size data)))
                  (or_zero (size data))
                  (byteOffset p + Z.of_N (or_zero (position data))) ;;
      v <- lift (parserFunctions (version p) (type data) buffer) ;;
      ret (set_property key v candleData)
  end.

Fixpoint forEach (entries : FieldTable) (candleData : Candle) : M num Candle :=
  match entries with
  | [] => ret candleData
  | entry :: rest =>
      candleData' <- decodeEntry candleData entry ;;
      forEach rest candleData'
  end.

Definition readCandle : M num Candle :=
  p <- this ;;
  (if byteOffset p <? 148 then set_byteOffset 148 else ret tt) ;;;
  match parserData (version p) with
  | None => throw TypeError      (* Object.entries(undefined) *)
  | Some entries => forEach entries []
  end.

Definition isValidFormat (p : HSTParser num) : bool :=
  match parserData (version p) with Some _ => true | None => false end.

(** ** Cursor operations *)

Definition getNextCandle : M num Candle :=
  p <- this ;;
  (if byteOffset p + candleByteSize p <=? filesize p then
     set_byteOffset (byteOffset p + candleByteSize p) ;;;
     set_candleNumber (num_add (candleNumber p) (of_Z 1))
   else throw AlreadyAtEndOfFile) ;;;
  readCandle.

Definition getPrevCandle : M num Candle :=
  p <- this ;;
  (if byteOffset p - candleByteSize p >=? 148 then
     set_byteOffset (byteOffset p - candleByteSize p) ;;;
     set_candleNumber (num_sub (candleNumber p) (of_Z 1))
   else throw AlreadyAtStartOfFile) ;;;
  readCandle.

(** The position [getCandleNumber] computes for a record index. *)
Definition newByteOffset (p : HSTParser num) (n : num) : num :=
  num_add (of_Z 148) (num_mul n (of_Z (candleByteSize p))).

Definition getCandleNumber (n : num) : M num Candle :=
  set_candleNumber n ;;;
  p <- this ;;
  if num_ltb (newByteOffset p n) (of_Z (filesize p)) then readCandle
  else throw FileTooSmall.

(** ** The constructor

    [file] is what the path names: [None] when [fs.existsSync] is false,
    [Some bytes] when the path exists and [fs.openSync(filename, "r+")]
    has opened it, [bytes] being its contents.  A path that exists and
    cannot be opened is the business of [new_HSTParser] below.
    [toString] is [Buffer.prototype.toString("utf8")]. *)
Variable toString : Buffer -> string.

Definition header_read (file : list byte) (len : N) (pos : Z) : Buffer :=
  overwrite (Buffer_alloc len) (file_bytes file pos len).

Definition constructor (file : option (list byte)) : result (World num) :=
  match file with
  | None => Throw CouldNotFindFile
  | Some bytes =>
      let filesize := Z.of_nat (List.length bytes) in
      if filesize <? 148 then Throw FileTooSmall
      else
        let byteOffset := 0 in
        let version := header_read bytes 4 byteOffset in
        let byteOffset := byteOffset + (64 + 4) in
        let symbol := header_read bytes 12 byteOffset in
        let byteOffset := byteOffset + 12 in
        let period := header_read bytes 4 byteOffset in
        let start := header_read bytes 4 148 in
        match readInt32LE version, readInt32LE period, readInt32LE start with
        | Ok version, Ok period, Ok start =>
            let candleByteSize := if version =? 400 then 44 else 60 in
            Ok (Build_World
                  (Build_HSTParser version (toString symbol) period
                     (start * 1000) (of_Z 0) bytes (148 - candleByteSize)
                     candleByteSize filesize)
                  [Build_ReadEvent 0 4; Build_ReadEvent 68 12;
                   Build_ReadEvent 80 4; Build_ReadEvent 148 4])
        | Throw e, _, _ | _, Throw e, _ | _, _, Throw e => Throw e
        end
  end.

(** ** Search by date

    [startDate] is the optional second argument: [VUndefined] selects
    the default [this.start]; [i] counts the attempts.  The function is
    recursive in the source; [fuel] bounds the depth of the calls and
    [None] means the bound was reached. *)
Context `{JsDiv num}.

(** [(date.getTime() - startDate.getTime()) / (60000 * this.period)] *)
Definition candleOffset (p : HSTParser num) (date startTime : Z) : num :=
  num_div (num_sub (of_Z date) (of_Z startTime))
          (num_mul (of_Z 60000) (of_Z (period p))).

Definition getTime (p : HSTParser num) (startDate : jsval) : result Z :=
  match startDate with
  | VUndefined => Ok (start p)
  | VDate ms => Ok ms
  | _ => Throw TypeError
  end.

Fixpoint getCandleAt (fuel : nat) (date : Z) (startDate : jsval) (i : nat)
  (w : World num) : option (result Candle * World num) :=
  match fuel with
  | O => None
  | S fuel' =>
      let p := parser w in
      match getTime p startDate with
      | Throw e => Some (Throw e, w)
      | Ok startTime =>
          match getCandleNumber
                  (num_add (candleNumber p) (candleOffset p date startTime))
                  w with
          | (Throw e, w1) => Some (Throw e, w1)
          | (Ok candle, w1) =>
              match timestamp_getTime candle with
              | Throw e => Some (Throw e, w1)
              | Ok ts =>
                  if ts =? date then Some (Ok candle, w1)
                  else if (i <? 50)%nat && negb (ts =? 0) then
                    getCandleAt fuel' date (get_property "timestamp" candle)
                      (S i) w1
                  else if (i <? 50)%nat then
                    match getCandleNumber
                            (num_floor
                               (num_div (candleNumber (parser w1)) (of_Z 2)))
                            w1 with
                    | (Throw e, w2) => Some (Throw e, w2)
                    | (Ok candle', w2) =>
                        getCandleAt fuel' date
                          (get_property "timestamp" candle') (S i) w2
                    end
                  else Some (Throw CandleNotFound, w1)
              end
          end
      end
  end.

End Parser.

(** ** A field table and sample files

    [parser_data.ts] is imported by the reader but is not among the
    sources, so every general statement below is about an arbitrary
    table.  The table and the files of this section serve the worked
    examples only. *)

Definition read_field (ty : FieldType) (sz pos : N) : FieldData :=
  {| value := None; size := Some sz; position := Some pos; type := Some ty |}.

Definition constant_field (v : jsval) : FieldData :=
  {| value := Some v; size := None; position := None; type := None |}.

(** Modelled from the spec: the entry of [parser_data.ts] for the legacy
    layout (version 400, 44 bytes a record: timestamp 4, open 8, low 8,
    high 8, close 8, volume 8), with the two fields that layout lacks given
    as the constant 0.  Eight-byte fields use the double decoder. *)
Definition layout400 : FieldTable :=
  [ ("timestamp", read_field date 4 0);
    ("open", read_field double 8 4);
    ("low", read_field double 8 12);
    ("high", read_field double 8 20);
    ("close", read_field double 8 28);
    ("volume", read_field double 8 36);
    ("spread", constant_field (VNumber 0));
    ("realVolume", constant_field (VNumber 0)) ]%string.

(** Modelled from the spec: the entry of [parser_data.ts] for the newer
    layout (version 401, 60 bytes a record: timestamp 4, open 8, high 8,
    low 8, close 8, volume 8, spread 4, real volume 8).  The sizes add up
    to 56; the time takes eight bytes on disk, of which the first four are
    decoded.  Eight-byte fields use the double decoder, the four-byte
    spread the 32-bit integer decoder. *)
Definition layout401 : FieldTable :=
  [ ("timestamp", read_field date 4 0);
    ("open", read_field double 8 8);
    ("high", read_field double 8 16);
    ("low", read_field double 8 24);
    ("close", read_field double 8 32);
    ("volume", read_field double 8 40);
    ("spread", read_field i32 4 48);
    ("realVolume", read_field double 8 52) ]%string.

(** Modelled from the spec: the table [parserData] of [parser_data.ts],
    with its two registered versions and nothing for any other. *)
Definition sample_parserData (version : Z) : option FieldTable :=
  if version =? 400 then Some layout400
  else if version =? 401 then Some layout401
  else None.

Definition byte_of_Z (z : Z) : byte :=
  match Byte.of_N (Z.to_N (z mod 256)) with
  | Some b => b
  | None => x00
  end.

(** The four bytes [writeInt32LE] would produce. *)
Definition int32LE_bytes (z : Z) : list byte :=
  [byte_of_Z z; byte_of_Z (z / 2 ^ 8); byte_of_Z (z / 2 ^ 16);
   byte_of_Z (z / 2 ^ 24)].

Definition zero_bytes (n : nat) : list byte := repeat x00 n.

(** A 148-byte header: version, 64 bytes of copyright, the symbol padded
    to 12 bytes, the period, and 64 bytes the reader never looks at. *)
Definition sample_header (version period : Z) : list byte :=
  int32LE_bytes version ++ zero_bytes 64
  ++ list_byte_of_string "EURUSD" ++ zero_bytes 6
  ++ int32LE_bytes period ++ zero_bytes 64.

(** A legacy record: the time in seconds, then five doubles left at zero. *)
Definition sample_record400 (seconds : Z) : list byte :=
  int32LE_bytes seconds ++ zero_bytes 40.

(** Hourly bars from 2001-09-09T01:46:40Z on. *)
Definition sample_file400 : list byte :=
  sample_header 400 60
  ++ sample_record400 1000000000 ++ sample_record400 1000003600
  ++ sample_record400 1000007200 ++ sample_record400 1000010800
  ++ sample_record400 1000014400.

(** The same bytes under a version number no table entry exists for. *)
Definition sample_file999 : list byte :=
  sample_header 999 60 ++ sample_record400 1000000000 ++ zero_bytes 16.

(** On bytes below 128, which is all the samples contain, decoding UTF-8
    is the identity on character codes. *)
Definition ascii_toString (b : Buffer) : string := string_of_list_byte b.

Definition open400 : result (World Z) :=
  constructor ascii_toString (Some sample_file400).

Definition open999 : result (World Z) :=
  constructor ascii_toString (Some sample_file999).

(** The cursor as a caller can observe it. *)
Definition cursor {num} (w : World num) : num * Z :=
  (candleNumber (parser w), byteOffset (parser w)).

(** ** What the header and a record field are, read off the file

    The layout of the format, stated on the bytes of the file and used to
    check the decoders against: the byte at an absolute offset (zero past
    the end of the file, as an unwritten buffer byte is) and the signed
    32-bit little-endian integer that starts at an offset. *)

Definition spec_byte_at (file : list byte) (offset : Z) : byte :=
  nth (Z.to_nat offset) file x00.

Definition spec_int32_at (file : list byte) (offset : Z) : Z :=
  let u := uint32LE (spec_byte_at file offset) (spec_byte_at file (offset + 1))
             (spec_byte_at file (offset + 2)) (spec_byte_at file (offset + 3)) in
  if 2 ^ 31 <=? u then u - 2 ^ 32 else u.

(** ** Worlds reached by the cursor operations *)

(** The world with the cursor fields replaced. *)
Definition moved {num} (w : World num) (n : num) (o : Z) : World num :=
  let p := parser w in
  Build_World
    (Build_HSTParser (version p) (symbol p) (period p) (start p) n (fd p) o
       (candleByteSize p) (filesize p))
    (reads w).

(** The world after the first statement of [readCandle]. *)
Definition clamped {num} (w : World num) : World num :=
  if byteOffset (parser w) <? 148 then moved w (candleNumber (parser w)) 148
  else w.

(** The worlds a caller can reach with the constructor followed by any
    number of [getNextCandle] and [getPrevCandle] calls, whether they
    return or throw. *)
Inductive Sequential (parserData : Z -> option FieldTable)
  (toString : Buffer -> string) : World Z -> Prop :=
| seq_open : forall file w,
    constructor toString file = Ok w -> Sequential parserData toString w
| seq_next : forall w,
    Sequential parserData toString w ->
    Sequential parserData toString (snd (getNextCandle parserData w))
| seq_prev : forall w,
    Sequential parserData toString w ->
    Sequential parserData toString (snd (getPrevCandle parserData w)).

(** Whether a decoder accepts a buffer of [n] bytes. *)
Definition accepts (ty : option FieldType) (n : N) : bool :=
  match ty with
  | Some date | Some i32 => (4 <=? n)%N
  | Some double => (8 <=? n)%N
  | None => true
  end.

(** [w'] has the reads of [w] followed by reads at [lo] or later only. *)
Definition reads_from {num} (lo : Z) (w w' : World num) : Prop :=
  exists new,
    reads w' = reads w ++ new
    /\ Forall (fun ev => lo <= read_position ev) new.

(** Whether the callback of [readCandle] gets through a table entry. *)
Definition decodable (entry : string * FieldData) : bool :=
  match is_defined (value (snd entry)) with
  | Some _ => true
  | None => accepts (type (snd entry)) (or_zero (size (snd entry)))
  end.

(** The parser [open400] returns, written out. *)
Definition world400 : World Z :=
  Build_World
    (Build_HSTParser 400 (ascii_toString (firstn 12 (skipn 68 sample_file400)))
       60 1000000000000 0 sample_file400 104 44 368)
    [Build_ReadEvent 0 4; Build_ReadEvent 68 12; Build_ReadEvent 80 4;
     Build_ReadEvent 148 4].

(** The parser [open999] returns, written out. *)
Definition world999 : World Z :=
  Build_World
    (Build_HSTParser 999 (ascii_toString (firstn 12 (skipn 68 sample_file999)))
       60 1000000000000 0 sample_file999 88 60 208)
    [Build_ReadEvent 0 4; Build_ReadEvent 68 12; Build_ReadEvent 80 4;
     Build_ReadEvent 148 4].

(** Two worlds a decode cannot tell apart: what it returns is fixed by
    the file, the version and the stored [byteOffset]. *)
Definition same_source {num} (w1 w2 : World num) : Prop :=
  fd (parser w1) = fd (parser w2)
  /\ version (parser w1) = version (parser w2)
  /\ byteOffset (parser w1) = byteOffset (parser w2).

(** The record size is one of the two sizes, the record number is not
    negative, and the cursor is on the record before it. *)
Definition on_previous_record (p : HSTParser Z) : Prop :=
  (candleByteSize p = 44 \/ candleByteSize p = 60)
  /\ 0 <= candleNumber p
  /\ byteOffset p = 148 + (candleNumber p - 1) * candleByteSize p.

(** The sample file opened with rational record numbers. *)
Definition world400q : World Q :=
  Build_World
    (Build_HSTParser 400 (ascii_toString (firstn 12 (skipn 68 sample_file400)))
       60 1000000000000 (inject_Z 0) sample_file400 104 44 368)
    [Build_ReadEvent 0 4; Build_ReadEvent 68 12; Build_ReadEvent 80 4;
     Build_ReadEvent 148 4].

(** ** The promise-returning methods

    [new Promise((resolve, reject) => { try { resolve(m()) } catch (err)
    { reject(err) } })]: the executor runs at once, inside the call, so the
    method has had its whole effect on the parser when the promise is
    handed back, and nothing is thrown to the caller. *)
Inductive Promise (A : Type) : Type :=
| Resolved (a : A)
| Rejected (e : error).
Arguments Resolved {A} a.
Arguments Rejected {A} e.

Definition settle {num A} (r : result A * World num)
  : result (Promise A) * World num :=
  match r with
  | (Ok a, w) => (Ok (Resolved a), w)
  | (Throw e, w) => (Ok (Rejected e), w)
  end.

Section Async.

Context {num : Type} `{JsArith num} `{JsDiv num}.
Variable parserData : Z -> option FieldTable.

Definition getNextCandleAsync : M num (Promise Candle) :=
  fun w => settle (getNextCandle parserData w).

Definition getPrevCandleAsync : M num (Promise Candle) :=
  fun w => settle (getPrevCandle parserData w).

Definition getCandleNumberAsync (n : num) : M num (Promise Candle) :=
  fun w => settle (getCandleNumber parserData n w).

(** [this.getCandleAt(date)]: the anchor and the attempt counter take
    their defaults. *)
Definition getCandleAtAsync (fuel : nat) (date : Z) (w : World num)
  : option (result (Promise Candle) * World num) :=
  match getCandleAt parserData fuel date VUndefined 0 w with
  | Some r => Some (settle r)
  | None => None
  end.

End Async.

(** ** Runs of calls *)

(** [k] calls of [getNextCandle] in a row, whatever each one returns. *)
Fixpoint nexts (parserData : Z -> option FieldTable) (k : nat) (w : World Z)
  : World Z :=
  match k with
  | O => w
  | S k' => snd (getNextCandle parserData (nexts parserData k' w))
  end.

(** The worlds reached from [w0] by any number of calls of the public
    methods, in any order, whether they return or throw.  The promise
    methods reach the same worlds as the methods they wrap. *)
Inductive Reaches {num : Type} `{JsArith num} `{JsDiv num}
  (parserData : Z -> option FieldTable) (w0 : World num)
  : World num -> Prop :=
| reach_start : Reaches parserData w0 w0
| reach_next : forall w,
    Reaches parserData w0 w ->
    Reaches parserData w0 (snd (getNextCandle parserData w))
| reach_prev : forall w,
    Reaches parserData w0 w ->
    Reaches parserData w0 (snd (getPrevCandle parserData w))
| reach_number : forall w n,
    Reaches parserData w0 w ->
    Reaches parserData w0 (snd (getCandleNumber parserData n w))
| reach_at : forall w fuel date startDate i r,
    Reaches parserData w0 w ->
    getCandleAt parserData fuel date startDate i w = Some r ->
    Reaches parserData w0 (snd r).

(** The header fields of a parser, which no method assigns. *)
Definition same_header {num} (p q : HSTParser num) : Prop :=
  version p = version q /\ symbol p = symbol q /\ period p = period q
  /\ start p = start q /\ fd p = fd q
  /\ candleByteSize p = candleByteSize q /\ filesize p = filesize q.

(** The cursor is on a record boundary, from one record before the data
    area up to the end of the file. *)
Definition on_boundary {num} (p : HSTParser num) : Prop :=
  (candleByteSize p = 44 \/ candleByteSize p = 60)
  /\ filesize p = Z.of_nat (List.length (fd p))
  /\ 148 <= filesize p
  /\ byteOffset p <= filesize p
  /\ exists k, -1 <= k /\ byteOffset p = 148 + k * candleByteSize p.

(** ** What one decode reads and returns *)

(** The reads [readCandle] issues with the cursor at [offset]: one for
    each entry that is not a constant, in the order of the table. *)
Fixpoint issued_reads (offset : Z) (entries : FieldTable) : list ReadEvent :=
  match entries with
  | [] => []
  | (_, data) :: rest =>
      match is_defined (value data) with
      | Some _ => issued_reads offset rest
      | None =>
          Build_ReadEvent (offset + Z.of_N (or_zero (position data)))
            (or_zero (size data))
          :: issued_reads offset rest
      end
  end.

(** The value the callback of [readCandle] gives a field, as a function
    of the parser alone. *)
Definition field_value {num} (p : HSTParser num) (data : FieldData)
  : result jsval :=
  match is_defined (value data) with
  | Some v => Ok v
  | None =>
      match readSync_pure (fd p) (Buffer_alloc (or_zero (size data)))
              (or_zero (size data))
              (byteOffset p + Z.of_N (or_zero (position data))) with
      | Ok buffer => parserFunctions (version p) (type data) buffer
      | Throw e => Throw e
      end
  end.

(** The eight bytes of the file from an offset on, zero past its end. *)
Definition spec_bytes8_at (file : list byte) (offset : Z) : list byte :=
  map (fun k => spec_byte_at file (offset + k)) [0; 1; 2; 3; 4; 5; 6; 7].

(** A version-401 record: the time in the low half of an eight-byte
    field, five eight-byte fields left at zero, the spread, and the real
    volume left at zero. *)
Definition sample_record401 (seconds spread : Z) : list byte :=
  int32LE_bytes seconds ++ zero_bytes 4 ++ zero_bytes 40
  ++ int32LE_bytes spread ++ zero_bytes 8.

Definition sample_file401 : list byte :=
  sample_header 401 60
  ++ sample_record401 1000000000 7 ++ sample_record401 1000003600 9.

(** The parser the constructor returns for [sample_file401]. *)
Definition world401 : World Z :=
  Build_World
    (Build_HSTParser 401 (ascii_toString (firstn 12 (skipn 68 sample_file401)))
       60 1000000000000 0 sample_file401 88 60 268)
    [Build_ReadEvent 0 4; Build_ReadEvent 68 12; Build_ReadEvent 80 4;
     Build_ReadEvent 148 4].

(** [sample_file999] opened with rational record numbers. *)
Definition world999q : World Q :=
  Build_World
    (Build_HSTParser 999 (ascii_toString (firstn 12 (skipn 68 sample_file999)))
       60 1000000000000 (inject_Z 0) sample_file999 88 60 208)
    [Build_ReadEvent 0 4; Build_ReadEvent 68 12; Build_ReadEvent 80 4;
     Build_ReadEvent 148 4].

(** ** The constructor on any path

    What a path can be when [new HSTParser(filename)] runs: nothing
    ([fs.existsSync] is false); something that exists but that
    [fs.openSync(filename, "r+")] refuses, throwing a system error with
    the given code (a directory gives "EISDIR", a file that may not be
    written "EACCES"); or a file that opens, with its contents. *)
Inductive Path : Type :=
| NoSuchFile
| CannotOpen (code : string)
| Opens (bytes : list byte).

(** Lines 26 to 63 in order: the existence check, then [fs.openSync],
    whose exception leaves the constructor as it is, then the size check
    and the header. *)
Definition new_HSTParser {num : Type} `{JsArith num}
  (toString : Buffer -> string) (path : Path) : result (World num) :=
  match path with
  | NoSuchFile => constructor toString None
  | CannotOpen code => Throw (SystemError code)
  | Opens bytes => constructor toString (Some bytes)
  end.

(** The legacy sample with its fourth record zeroed, time included. *)
Definition sample_file400z : list byte :=
  sample_header 400 60
  ++ sample_record400 1000000000 ++ sample_record400 1000003600
  ++ sample_record400 1000007200 ++ sample_record400 0
  ++ sample_record400 1000014400.

(** The parser the constructor returns for [sample_file400z], with
    rational record numbers. *)
Definition world400zq : World Q :=
  Build_World
    (Build_HSTParser 400 (ascii_toString (firstn 12 (skipn 68 sample_file400z)))
       60 1000000000000 (inject_Z 0) sample_file400z 104 44 368)
    [Build_ReadEvent 0 4; Build_ReadEvent 68 12; Build_ReadEvent 80 4;
     Build_ReadEvent 148 4].

(** * Properties *)

(** ** Bytes and buffers *)

Lemma byte_val_range (b : byte) : 0 <= byte_val b < 256.
Proof.
  unfold byte_val. pose proof (Byte.to_N_bounded b) as Hb.
  split; [apply N2Z.is_nonneg | lia].
Qed.

Lemma uint32LE_range (b0 b1 b2 b3 : byte) : 0 <= uint32LE b0 b1 b2 b3 < 2 ^ 32.
Proof.
  unfold uint32LE.
  pose proof (byte_val_range b0). pose proof (byte_val_range b1).
  pose proof (byte_val_range b2). pose proof (byte_val_range b3).
  change (2 ^ 8) with 256. change (2 ^ 16) with 65536.
  change (2 ^ 24) with 16777216. change (2 ^ 32) with 4294967296.
  lia.
Qed.

Lemma spec_int32_at_range (file : list byte) (offset : Z) :
  - 2 ^ 31 <= spec_int32_at file offset < 2 ^ 31.
Proof.
  unfold spec_int32_at.
  pose proof (uint32LE_range (spec_byte_at file offset)
                (spec_byte_at file (offset + 1)) (spec_byte_at file (offset + 2))
                (spec_byte_at file (offset + 3))) as Hu.
  change (2 ^ 32) with 4294967296 in *. change (2 ^ 31) with 2147483648 in *.
  destruct (2147483648 <=? _) eqn:E; [apply Z.leb_le in E | apply Z.leb_gt in E];
    lia.
Qed.

Lemma length_overwrite (buf got : list byte) :
  (List.length got <= List.length buf)%nat ->
  List.length (overwrite buf got) = List.length buf.
Proof.
  intros Hle. unfold overwrite. rewrite length_app, length_skipn. lia.
Qed.

Lemma length_file_bytes (file : list byte) (pos : Z) (len : N) :
  (List.length (file_bytes file pos len) <= N.to_nat len)%nat.
Proof. unfold file_bytes. apply firstn_le_length. Qed.

Lemma length_Buffer_alloc (n : N) : List.length (Buffer_alloc n) = N.to_nat n.
Proof. unfold Buffer_alloc. apply repeat_length. Qed.

(** A buffer filled by [readSync] keeps the length it was allocated with. *)
Lemma length_header_read (file : list byte) (len : N) (pos : Z) :
  List.length (overwrite (Buffer_alloc len) (file_bytes file pos len))
  = N.to_nat len.
Proof.
  rewrite length_overwrite; rewrite length_Buffer_alloc;
    [reflexivity | apply length_file_bytes].
Qed.

Lemma overwrite_alloc_first4 (n : nat) (l : list byte) :
  (4 <= n)%nat ->
  exists rest,
    overwrite (repeat x00 n) (firstn n l)
    = nth 0 l x00 :: nth 1 l x00 :: nth 2 l x00 :: nth 3 l x00 :: rest.
Proof.
  intros Hn. destruct n as [|[|[|[|m]]]]; try lia.
  destruct l as [|a [|b [|c [|d l]]]]; cbn; eexists; reflexivity.
Qed.

(** A buffer of at least four bytes filled at a position decodes to the
    32-bit integer the file has there. *)
Lemma readInt32LE_read (file : list byte) (pos : Z) (len : N) :
  0 <= pos -> (4 <= len)%N ->
  readInt32LE (overwrite (Buffer_alloc len) (file_bytes file pos len))
  = Ok (spec_int32_at file pos).
Proof.
  intros Hpos Hlen. unfold Buffer_alloc, file_bytes.
  destruct (overwrite_alloc_first4 (N.to_nat len) (skipn (Z.to_nat pos) file))
    as [rest Hrest]; [lia | ].
  rewrite Hrest. unfold readInt32LE, spec_int32_at, spec_byte_at.
  rewrite !nth_skipn.
  replace (Z.to_nat (pos + 1)) with (Z.to_nat pos + 1)%nat by lia.
  replace (Z.to_nat (pos + 2)) with (Z.to_nat pos + 2)%nat by lia.
  replace (Z.to_nat (pos + 3)) with (Z.to_nat pos + 3)%nat by lia.
  rewrite Nat.add_0_r. reflexivity.
Qed.

(** Bytes that are all inside the file are read as they are. *)
Lemma read_inside (file : list byte) (pos : Z) (len : N) :
  0 <= pos -> pos + Z.of_N len <= Z.of_nat (List.length file) ->
  overwrite (Buffer_alloc len) (file_bytes file pos len)
  = firstn (N.to_nat len) (skipn (Z.to_nat pos) file).
Proof.
  intros Hpos Hin. unfold overwrite, file_bytes.
  rewrite length_firstn, length_skipn, Nat.min_l by lia.
  unfold Buffer_alloc.
  replace (skipn (N.to_nat len) (repeat x00 (N.to_nat len))) with (@nil byte).
  - apply app_nil_r.
  - symmetry. apply skipn_all2. rewrite repeat_length. lia.
Qed.

(** ** The constructor *)

(** C6. Opening a file of at least 148 bytes succeeds and decodes the
    header from fixed offsets, whatever the version: [version] is the
    signed 32-bit little-endian integer at offset 0, [symbol] is the text
    of all 12 bytes at offsets 68..79 (nothing trimmed), [period] is the
    integer at offset 80, and [start] is the integer at offset 148 times
    1000. *)
Theorem constructor_decodes_header :
  forall (num : Type) (A : JsArith num) (toString : Buffer -> string)
         (bytes : list byte),
    148 <= Z.of_nat (List.length bytes) ->
    exists w : World num,
      constructor toString (Some bytes) = Ok w
      /\ version (parser w) = spec_int32_at bytes 0
      /\ symbol (parser w) = toString (firstn 12 (skipn 68 bytes))
      /\ List.length (firstn 12 (skipn 68 bytes)) = 12%nat
      /\ period (parser w) = spec_int32_at bytes 80
      /\ start (parser w) = spec_int32_at bytes 148 * 1000.
Proof.
  intros num A toString bytes Hsize.
  unfold constructor.
  destruct (Z.of_nat (List.length bytes) <? 148) eqn:E;
    [apply Z.ltb_lt in E; lia | clear E].
  unfold header_read. cbn zeta.
  change (0 + (64 + 4)) with 68. change (68 + 12) with 80.
  rewrite !readInt32LE_read by lia.
  eexists. split; [reflexivity | ]. cbn [parser version symbol period start].
  rewrite (read_inside bytes 68 12) by lia.
  change (Z.to_nat 68) with 68%nat. change (N.to_nat 12) with 12%nat.
  repeat split.
  rewrite length_firstn, length_skipn. lia.
Qed.

Lemma constructor_decodes_header_witness :
  148 <= Z.of_nat (List.length sample_file400)
  /\ exists w : World Z,
      constructor ascii_toString (Some sample_file400) = Ok w
      /\ version (parser w) = spec_int32_at sample_file400 0
      /\ symbol (parser w) = ascii_toString (firstn 12 (skipn 68 sample_file400))
      /\ List.length (firstn 12 (skipn 68 sample_file400)) = 12%nat
      /\ period (parser w) = spec_int32_at sample_file400 80
      /\ start (parser w) = spec_int32_at sample_file400 148 * 1000.
Proof.
  split.
  - vm_compute. discriminate.
  - apply (constructor_decodes_header Z IntegerIndex ascii_toString
             sample_file400).
    vm_compute. discriminate.
Defined.

Lemma constructor_initial_cursor_facts :
  forall (num : Type) (A : JsArith num) (toString : Buffer -> string)
         (file : option (list byte)) (w : World num),
    constructor toString file = Ok w ->
    (candleByteSize (parser w) = 44 \/ candleByteSize (parser w) = 60)
    /\ byteOffset (parser w) = 148 - candleByteSize (parser w).
Proof.
  intros num A toString file w Hopen.
  unfold constructor in Hopen.
  destruct file as [bytes|]; [ | discriminate].
  destruct (Z.of_nat (List.length bytes) <? 148); [discriminate | ].
  cbn zeta in Hopen.
  destruct (readInt32LE (header_read bytes 4 0)) as [v|]; [ | discriminate].
  destruct (readInt32LE (header_read bytes 4 (0 + (64 + 4) + 12))) as [per|];
    [ | discriminate].
  destruct (readInt32LE (header_read bytes 4 148)) as [st|]; [ | discriminate].
  inversion Hopen; subst w; clear Hopen. cbn.
  destruct (v =? 400); split; auto.
Qed.
Arguments constructor_initial_cursor_facts {num A} toString file w _.

(** C7. The record size is 44 for version 400 and 60 for every other
    version, never anything else, and the cursor starts one record before
    the data area with record number 0. *)
Theorem constructor_initial_cursor :
  forall (num : Type) (A : JsArith num) (toString : Buffer -> string)
         (file : option (list byte)) (w : World num),
    constructor toString file = Ok w ->
    candleByteSize (parser w) = (if version (parser w) =? 400 then 44 else 60)
    /\ (candleByteSize (parser w) = 44 \/ candleByteSize (parser w) = 60)
    /\ byteOffset (parser w) = 148 - candleByteSize (parser w)
    /\ candleNumber (parser w) = of_Z 0.
Proof.
  intros num A toString file w Hopen.
  unfold constructor in Hopen.
  destruct file as [bytes|]; [ | discriminate].
  destruct (Z.of_nat (List.length bytes) <? 148); [discriminate | ].
  cbn zeta in Hopen.
  destruct (readInt32LE (header_read bytes 4 0)) as [v|]; [ | discriminate].
  destruct (readInt32LE (header_read bytes 4 (0 + (64 + 4) + 12))) as [per|];
    [ | discriminate].
  destruct (readInt32LE (header_read bytes 4 148)) as [st|]; [ | discriminate].
  inversion Hopen; subst w; clear Hopen. cbn.
  destruct (v =? 400); repeat split; auto.
Qed.

Lemma constructor_initial_cursor_witness :
  exists w : World Z,
    open400 = Ok w
    /\ candleByteSize (parser w) = 44
    /\ byteOffset (parser w) = 104
    /\ candleNumber (parser w) = 0.
Proof.
  destruct open400 as [w|e] eqn:Hopen; [ | vm_compute in Hopen; discriminate].
  exists w.
  pose proof (constructor_initial_cursor Z IntegerIndex ascii_toString
                (Some sample_file400) w Hopen) as (Hsize & _ & Hoff & Hnum).
  assert (Hv : version (parser w) = 400).
  { vm_compute in Hopen. inversion Hopen. reflexivity. }
  rewrite Hv in Hsize. change (400 =? 400) with true in Hsize.
  rewrite Hsize in Hoff.
  repeat split; assumption.
Defined.

(** ** The record decoder *)

Lemma readInt32LE_error (buf : Buffer) (e : error) :
  readInt32LE buf = Throw e -> e = RangeError.
Proof.
  destruct buf as [|b0 [|b1 [|b2 [|b3 rest]]]]; cbn; congruence.
Qed.

Lemma readDoubleLE_error (buf : Buffer) (e : error) :
  readDoubleLE buf = Throw e -> e = RangeError.
Proof. unfold readDoubleLE. destruct (8 <=? _)%nat; congruence. Qed.

Lemma parserFunctions_error (v : Z) (ty : option FieldType) (buf : Buffer)
  (e : error) :
  parserFunctions v ty buf = Throw e -> e = RangeError.
Proof.
  unfold parserFunctions. destruct ty as [[ | | ]|].
  - destruct (readInt32LE buf) eqn:E; [discriminate | ].
    intros He; inversion He; subst. eapply readInt32LE_error; eassumption.
  - destruct (readDoubleLE buf) eqn:E; [discriminate | ].
    intros He; inversion He; subst. eapply readDoubleLE_error; eassumption.
  - destruct (readInt32LE buf) eqn:E; [discriminate | ].
    intros He; inversion He; subst. eapply readInt32LE_error; eassumption.
  - discriminate.
Qed.

Section Decoding.

Context {num : Type} {A : JsArith num}.
Variable parserData : Z -> option FieldTable.

Lemma world_eta (w : World num) :
  moved w (candleNumber (parser w)) (byteOffset (parser w)) = w.
Proof. destruct w as [[] ?]. reflexivity. Qed.

Lemma parser_clamped (w : World num) :
  parser (clamped w)
  = parser (moved w (candleNumber (parser w))
              (Z.max 148 (byteOffset (parser w)))).
Proof.
  unfold clamped. destruct (byteOffset (parser w) <? 148) eqn:E.
  - apply Z.ltb_lt in E. rewrite Z.max_l by lia. reflexivity.
  - apply Z.ltb_ge in E. rewrite Z.max_r by lia. rewrite world_eta.
    reflexivity.
Qed.

Lemma reads_clamped (w : World num) : reads (clamped w) = reads w.
Proof. unfold clamped. destruct (_ <? _); reflexivity. Qed.

Lemma readCandle_unfold (w : World num) :
  readCandle parserData w
  = match parserData (version (parser w)) with
    | None => (Throw TypeError, clamped w)
    | Some entries => forEach entries [] (clamped w)
    end.
Proof.
  unfold readCandle, clamped, bind, this, set_byteOffset, ret, throw, moved.
  destruct w as [[v s pe st cn f off sz fs] rs]. cbn.
  destruct (off <? 148); cbn; destruct (parserData v); reflexivity.
Qed.

(** One field: the parser object is not touched, at most one read is
    issued, at the field's place in the record, and the only error is a
    range error. *)
Lemma decodeEntry_effect (c : Candle) (entry : string * FieldData)
  (w : World num) :
  parser (snd (decodeEntry c entry w)) = parser w
  /\ (exists new,
        reads (snd (decodeEntry c entry w)) = reads w ++ new
        /\ Forall (fun ev => byteOffset (parser w) <= read_position ev) new)
  /\ (forall e, fst (decodeEntry c entry w) = Throw e -> e = RangeError).
Proof.
  destruct entry as [key data]. unfold decodeEntry.
  destruct (is_defined (value data)) as [v|].
  - cbn. repeat split.
    + exists []. rewrite app_nil_r. split; [reflexivity | constructor].
    + intros e He. discriminate.
  - unfold bind, this, readSync, lift, ret. cbn.
    destruct (readSync_pure _ _ _ _) as [buffer|e1] eqn:Hread; cbn.
    + destruct (parserFunctions _ _ _) as [v|e2] eqn:Hparse; cbn.
      * repeat split.
        -- eexists. split; [reflexivity | ].
           constructor; [cbn; lia | constructor].
        -- intros e He. discriminate.
      * repeat split.
        -- eexists. split; [reflexivity | ].
           constructor; [cbn; lia | constructor].
        -- intros e He. inversion He; subst e.
           eapply parserFunctions_error; eassumption.
    + repeat split.
      * eexists. split; [reflexivity | ].
        constructor; [cbn; lia | constructor].
      * intros e He. inversion He; subst e.
        unfold readSync_pure in Hread.
        destruct (_ <? 0) in Hread; congruence.
Qed.
End Decoding.

Section ReadCandle.

Context {num : Type} {A : JsArith num}.
Variable parserData : Z -> option FieldTable.

Lemma forEach_effect (entries : FieldTable) :
  forall (c : Candle) (w : World num),
    parser (snd (forEach entries c w)) = parser w
    /\ (exists new,
          reads (snd (forEach entries c w)) = reads w ++ new
          /\ Forall (fun ev => byteOffset (parser w) <= read_position ev) new)
    /\ (forall e, fst (forEach entries c w) = Throw e -> e = RangeError).
Proof.
  induction entries as [|entry rest IH]; intros c w.
  - cbn. repeat split.
    + exists []. rewrite app_nil_r. split; [reflexivity | constructor].
    + discriminate.
  - cbn [forEach]. unfold bind.
    destruct (decodeEntry_effect c entry w) as (Hp & (new1 & Hr1 & Hpos1) & He1).
    destruct (decodeEntry c entry w) as [[c1|e1] w1]; cbn [fst snd] in *.
    + destruct (IH c1 w1) as (Hp2 & (new2 & Hr2 & Hpos2) & He2).
      repeat split.
      * congruence.
      * exists (new1 ++ new2). rewrite Hr2, Hr1, app_assoc.
        split; [reflexivity | ].
        apply Forall_app. split; [assumption | ].
        rewrite Hp in Hpos2. assumption.
      * assumption.
    + repeat split.
      * assumption.
      * exists new1. split; assumption.
      * intros e He. apply He1. assumption.
Qed.

(** [readCandle] changes nothing but [byteOffset], which it raises to
    148 when it is lower; it reads at or after that offset only; and the
    errors it can throw are the type error and the range error. *)
Lemma readCandle_effect (w : World num) :
  parser (snd (readCandle parserData w)) = parser (clamped w)
  /\ (exists new,
        reads (snd (readCandle parserData w)) = reads w ++ new
        /\ Forall (fun ev => Z.max 148 (byteOffset (parser w))
                             <= read_position ev) new)
  /\ (forall e, fst (readCandle parserData w) = Throw e ->
                e = TypeError \/ e = RangeError).
Proof.
  rewrite readCandle_unfold.
  destruct (parserData (version (parser w))) as [entries|].
  - destruct (forEach_effect entries [] (clamped w))
      as (Hp & (new & Hr & Hpos) & He).
    repeat split.
    + assumption.
    + exists new. rewrite Hr, reads_clamped. split; [reflexivity | ].
      rewrite parser_clamped in Hpos. exact Hpos.
    + intros e H. right. apply He. assumption.
  - cbn. repeat split.
    + exists []. rewrite app_nil_r, reads_clamped.
      split; [reflexivity | constructor].
    + intros e H. inversion H. left. reflexivity.
Qed.

Lemma byteOffset_readCandle (w : World num) :
  byteOffset (parser (snd (readCandle parserData w)))
  = Z.max 148 (byteOffset (parser w)).
Proof.
  destruct (readCandle_effect w) as (Hp & _). rewrite Hp, parser_clamped.
  reflexivity.
Qed.

Lemma candleNumber_readCandle (w : World num) :
  candleNumber (parser (snd (readCandle parserData w)))
  = candleNumber (parser w).
Proof.
  destruct (readCandle_effect w) as (Hp & _). rewrite Hp, parser_clamped.
  reflexivity.
Qed.

(** ** The cursor operations, one equation each *)

Lemma getNextCandle_unfold (w : World num) :
  getNextCandle parserData w
  = if byteOffset (parser w) + candleByteSize (parser w)
       <=? filesize (parser w)
    then readCandle parserData
           (moved w (num_add (candleNumber (parser w)) (of_Z 1))
              (byteOffset (parser w) + candleByteSize (parser w)))
    else (Throw AlreadyAtEndOfFile, w).
Proof.
  unfold getNextCandle, bind, this, set_byteOffset, set_candleNumber, throw,
    moved.
  destruct w as [[v s pe st cn f off sz fs] rs]. cbn.
  destruct (off + sz <=? fs); reflexivity.
Qed.

Lemma getPrevCandle_unfold (w : World num) :
  getPrevCandle parserData w
  = if byteOffset (parser w) - candleByteSize (parser w) >=? 148
    then readCandle parserData
           (moved w (num_sub (candleNumber (parser w)) (of_Z 1))
              (byteOffset (parser w) - candleByteSize (parser w)))
    else (Throw AlreadyAtStartOfFile, w).
Proof.
  unfold getPrevCandle, bind, this, set_byteOffset, set_candleNumber, throw,
    moved.
  destruct w as [[v s pe st cn f off sz fs] rs]. cbn.
  destruct (off - sz >=? 148); reflexivity.
Qed.

Lemma getCandleNumber_unfold (n : num) (w : World num) :
  getCandleNumber parserData n w
  = if num_ltb (newByteOffset (parser w) n) (of_Z (filesize (parser w)))
    then readCandle parserData (moved w n (byteOffset (parser w)))
    else (Throw FileTooSmall, moved w n (byteOffset (parser w))).
Proof.
  unfold getCandleNumber, bind, this, set_candleNumber, throw, moved,
    newByteOffset.
  destruct w as [[v s pe st cn f off sz fs] rs]. cbn.
  destruct (num_ltb _ _); reflexivity.
Qed.

End ReadCandle.

(** ** Reads stay out of the header *)

Section Bounds.

Context {num : Type} {A : JsArith num}.
Variable parserData : Z -> option FieldTable.

Lemma reads_from_refl (lo : Z) (w : World num) : reads_from lo w w.
Proof. exists []. rewrite app_nil_r. split; [reflexivity | constructor]. Qed.

Lemma reads_from_readCandle (w : World num) :
  reads_from 148 w (snd (readCandle parserData w)).
Proof.
  destruct (readCandle_effect parserData w) as (_ & (new & Hr & Hpos) & _).
  exists new. split; [assumption | ].
  eapply Forall_impl; [ | exact Hpos]. cbn. intros ev Hev. lia.
Qed.

Lemma reads_from_moved (w : World num) (n : num) (o : Z) (w' : World num) :
  reads_from 148 (moved w n o) w' -> reads_from 148 w w'.
Proof. intros H. exact H. Qed.

Lemma readCandle_not_bound_error (w : World num) (e : error) :
  fst (readCandle parserData w) = Throw e ->
  e <> AlreadyAtEndOfFile /\ e <> AlreadyAtStartOfFile /\ e <> FileTooSmall.
Proof.
  intros H. destruct (readCandle_effect parserData w) as (_ & _ & He).
  destruct (He e H); subst e; repeat split; discriminate.
Qed.

End Bounds.

(** ** The invariant of the sequential operations *)

Section SequentialInvariant.

Variable parserData : Z -> option FieldTable.
Variable toString : Buffer -> string.

Lemma on_previous_record_open (file : option (list byte)) (w : World Z) :
  constructor toString file = Ok w -> on_previous_record (parser w).
Proof.
  intros Hopen.
  destruct (constructor_initial_cursor_facts toString file w Hopen)
    as (Hsz & Hoff).
  assert (Hn : candleNumber (parser w) = 0).
  { unfold constructor in Hopen.
    destruct file as [bytes|]; [ | discriminate].
    destruct (_ <? 148); [discriminate | ]. cbn zeta in Hopen.
    destruct (readInt32LE _); [ | discriminate].
    destruct (readInt32LE _); [ | discriminate].
    destruct (readInt32LE _); [ | discriminate].
    inversion Hopen. reflexivity. }
  unfold on_previous_record. rewrite Hn. lia.
Qed.

Lemma on_previous_record_next (w : World Z) :
  on_previous_record (parser w) ->
  on_previous_record (parser (snd (getNextCandle parserData w))).
Proof.
  intros (Hsz & Hn & Hoff). rewrite getNextCandle_unfold.
  destruct (_ <=? _); [ | repeat split; assumption].
  destruct (readCandle_effect parserData
              (moved w (num_add (candleNumber (parser w)) (of_Z 1))
                 (byteOffset (parser w) + candleByteSize (parser w))))
    as (Hp & _).
  rewrite Hp, parser_clamped. unfold on_previous_record, moved.
  cbn [parser candleNumber byteOffset candleByteSize num_add of_Z
       IntegerIndex].
  nia.
Qed.

Lemma on_previous_record_prev (w : World Z) :
  on_previous_record (parser w) ->
  on_previous_record (parser (snd (getPrevCandle parserData w))).
Proof.
  intros (Hsz & Hn & Hoff). rewrite getPrevCandle_unfold.
  destruct (_ >=? 148) eqn:Ep; [ | repeat split; assumption].
  rewrite Z.geb_leb in Ep. apply Z.leb_le in Ep.
  destruct (readCandle_effect parserData
              (moved w (num_sub (candleNumber (parser w)) (of_Z 1))
                 (byteOffset (parser w) - candleByteSize (parser w))))
    as (Hp & _).
  rewrite Hp, parser_clamped. unfold on_previous_record, moved.
  cbn [parser candleNumber byteOffset candleByteSize num_sub of_Z
       IntegerIndex].
  nia.
Qed.

Lemma Sequential_on_previous_record (w : World Z) :
  Sequential parserData toString w -> on_previous_record (parser w).
Proof.
  induction 1 as [file w Hopen | w Hseq IH | w Hseq IH].
  - eapply on_previous_record_open; eassumption.
  - apply on_previous_record_next; assumption.
  - apply on_previous_record_prev; assumption.
Qed.

End SequentialInvariant.

(** C10. [readCandle] first raises a stored [byteOffset] below 148 to 148
    and keeps it there, and every read it issues, alone or on behalf of
    [getNextCandle], [getPrevCandle] or [getCandleNumber], is at offset
    148 or later: no decode reads inside the header. *)
Theorem readCandle_reads_past_header :
  forall (num : Type) (A : JsArith num) (parserData : Z -> option FieldTable)
         (w : World num),
    byteOffset (parser (snd (readCandle parserData w)))
    = Z.max 148 (byteOffset (parser w))
    /\ 148 <= byteOffset (parser (snd (readCandle parserData w)))
    /\ reads_from 148 w (snd (readCandle parserData w))
    /\ reads_from 148 w (snd (getNextCandle parserData w))
    /\ reads_from 148 w (snd (getPrevCandle parserData w))
    /\ (forall n, reads_from 148 w (snd (getCandleNumber parserData n w))).
Proof.
  intros num A parserData w.
  split; [apply byteOffset_readCandle | ].
  split; [rewrite byteOffset_readCandle; lia | ].
  split; [apply reads_from_readCandle | ].
  split; [ | split; [ | intros n]].
  - rewrite getNextCandle_unfold. destruct (_ <=? _).
    + eapply reads_from_moved. apply reads_from_readCandle.
    + apply reads_from_refl.
  - rewrite getPrevCandle_unfold. destruct (_ >=? _).
    + eapply reads_from_moved. apply reads_from_readCandle.
    + apply reads_from_refl.
  - rewrite getCandleNumber_unfold. destruct (num_ltb _ _).
    + eapply reads_from_moved. apply reads_from_readCandle.
    + apply (reads_from_refl 148 (moved w n (byteOffset (parser w)))).
Qed.

(** ** Bounds of the sequential operations *)

(** C8. [getNextCandle] throws the end-of-file error exactly when
    [byteOffset + candleByteSize] exceeds [filesize]; otherwise it moves
    one record forward and decodes.  [getPrevCandle] throws the
    start-of-file error exactly when [byteOffset - candleByteSize] is
    below 148; otherwise it moves one record back and decodes.  In
    particular [getPrevCandle] throws that error on a freshly opened
    parser (record number 0), whenever the cursor is on record 0, the one
    at offset 148, and whenever the record number is 0 on a parser driven
    by the two sequential operations. *)
Theorem sequential_bounds :
  forall (num : Type) (A : JsArith num) (parserData : Z -> option FieldTable)
         (w : World num),
    let p := parser w in
    (fst (getNextCandle parserData w) = Throw AlreadyAtEndOfFile
     <-> byteOffset p + candleByteSize p > filesize p)
    /\ (byteOffset p + candleByteSize p <= filesize p ->
        getNextCandle parserData w
        = readCandle parserData
            (moved w (num_add (candleNumber p) (of_Z 1))
               (byteOffset p + candleByteSize p)))
    /\ (fst (getPrevCandle parserData w) = Throw AlreadyAtStartOfFile
        <-> byteOffset p - candleByteSize p < 148)
    /\ (148 <= byteOffset p - candleByteSize p ->
        getPrevCandle parserData w
        = readCandle parserData
            (moved w (num_sub (candleNumber p) (of_Z 1))
               (byteOffset p - candleByteSize p)))
    /\ (byteOffset p = 148 -> 0 < candleByteSize p ->
        getPrevCandle parserData w = (Throw AlreadyAtStartOfFile, w))
    /\ (forall toString file, constructor toString file = Ok w ->
        getPrevCandle parserData w = (Throw AlreadyAtStartOfFile, w))
    /\ (forall toString (wz : World Z),
          Sequential parserData toString wz ->
          candleNumber (parser wz) = 0 ->
          getPrevCandle parserData wz = (Throw AlreadyAtStartOfFile, wz)).
Proof.
  intros num A parserData w p. subst p.
  rewrite getNextCandle_unfold, getPrevCandle_unfold.
  assert (Hnext :
            fst (if byteOffset (parser w) + candleByteSize (parser w)
                    <=? filesize (parser w)
                 then readCandle parserData
                        (moved w (num_add (candleNumber (parser w)) (of_Z 1))
                           (byteOffset (parser w) + candleByteSize (parser w)))
                 else (Throw AlreadyAtEndOfFile, w))
            = Throw AlreadyAtEndOfFile
            <-> byteOffset (parser w) + candleByteSize (parser w)
                > filesize (parser w)).
  { destruct (_ <=? _) eqn:En;
      [apply Z.leb_le in En | apply Z.leb_gt in En]; split; intros H.
    - apply readCandle_not_bound_error in H. intuition congruence.
    - lia.
    - lia.
    - reflexivity. }
  assert (Hprev :
            fst (if byteOffset (parser w) - candleByteSize (parser w) >=? 148
                 then readCandle parserData
                        (moved w (num_sub (candleNumber (parser w)) (of_Z 1))
                           (byteOffset (parser w) - candleByteSize (parser w)))
                 else (Throw AlreadyAtStartOfFile, w))
            = Throw AlreadyAtStartOfFile
            <-> byteOffset (parser w) - candleByteSize (parser w) < 148).
  { destruct (_ >=? 148) eqn:Ep; rewrite Z.geb_leb in Ep;
      [apply Z.leb_le in Ep | apply Z.leb_gt in Ep]; split; intros H.
    - apply readCandle_not_bound_error in H. intuition congruence.
    - lia.
    - lia.
    - reflexivity. }
  split; [exact Hnext | ].
  split.
  { intros Hle. apply Z.leb_le in Hle. rewrite Hle. reflexivity. }
  split; [exact Hprev | ].
  split.
  { intros Hge. rewrite Z.geb_leb. apply Z.leb_le in Hge. rewrite Hge.
    reflexivity. }
  split.
  { intros Hoff Hsz. rewrite Z.geb_leb.
    destruct (148 <=? _) eqn:Ep; [apply Z.leb_le in Ep; lia | reflexivity]. }
  split.
  - intros toString file Hopen.
    destruct (constructor_initial_cursor_facts toString file w Hopen)
      as (Hsz & Hoff).
    rewrite Z.geb_leb.
    destruct (148 <=? _) eqn:Ep; [apply Z.leb_le in Ep; lia | reflexivity].
  - intros toString wz Hseq Hzero.
    destruct (Sequential_on_previous_record parserData toString wz Hseq)
      as (Hsz & _ & Hoff).
    rewrite Hzero in Hoff. rewrite getPrevCandle_unfold, Z.geb_leb.
    destruct (148 <=? _) eqn:Ep; [apply Z.leb_le in Ep; lia | reflexivity].
Qed.

Lemma open400_world : open400 = Ok world400.
Proof. vm_compute. reflexivity. Qed.

Lemma open999_world : open999 = Ok world999.
Proof. vm_compute. reflexivity. Qed.

Lemma sequential_bounds_witness :
  byteOffset (parser world400) + candleByteSize (parser world400)
  <= filesize (parser world400)
  /\ getNextCandle sample_parserData world400
     = readCandle sample_parserData (moved world400 1 148)
  /\ constructor ascii_toString (Some sample_file400) = Ok world400
  /\ getPrevCandle sample_parserData world400
     = (Throw AlreadyAtStartOfFile, world400).
Proof.
  pose proof (sequential_bounds Z IntegerIndex sample_parserData world400)
    as Hb.
  cbv zeta in Hb. destruct Hb as (_ & Hnext & _ & _ & _ & Hfresh & _).
  assert (Hle : byteOffset (parser world400) + candleByteSize (parser world400)
                <= filesize (parser world400)) by (vm_compute; discriminate).
  assert (Hopen : constructor ascii_toString (Some sample_file400)
                  = Ok world400) by (vm_compute; reflexivity).
  split; [exact Hle | ].
  split; [exact (Hnext Hle) | ].
  split; [exact Hopen | ].
  exact (Hfresh ascii_toString (Some sample_file400) Hopen).
Defined.

(** ** Failed calls *)

(** C3, as stated, fails.  [getCandleNumber(1000)] on the freshly opened
    five-record file throws the too-small error and leaves 1000 in
    [candleNumber]; [getNextCandle] on a file of a version the table does
    not list throws from the decode, after the cursor has moved. *)
Lemma failed_call_moves_cursor :
  (fst (getCandleNumber sample_parserData 1000 world400) = Throw FileTooSmall
   /\ cursor (snd (getCandleNumber sample_parserData 1000 world400))
      <> cursor world400)
  /\ (fst (getNextCandle sample_parserData world999) = Throw TypeError
      /\ cursor (snd (getNextCandle sample_parserData world999))
         <> cursor world999).
Proof.
  split; split; try (vm_compute; reflexivity); vm_compute; discriminate.
Qed.

(** C3, amended.  A call stopped by its own bound check leaves
    [byteOffset] as it was; for [getNextCandle] and [getPrevCandle] it
    leaves the whole parser, [candleNumber] included, as it was. *)
Theorem failed_bound_check_keeps_cursor :
  forall (num : Type) (A : JsArith num) (parserData : Z -> option FieldTable)
         (w : World num),
    (fst (getNextCandle parserData w) = Throw AlreadyAtEndOfFile ->
     snd (getNextCandle parserData w) = w)
    /\ (fst (getPrevCandle parserData w) = Throw AlreadyAtStartOfFile ->
        snd (getPrevCandle parserData w) = w)
    /\ (forall n, fst (getCandleNumber parserData n w) = Throw FileTooSmall ->
        byteOffset (parser (snd (getCandleNumber parserData n w)))
        = byteOffset (parser w)).
Proof.
  intros num A parserData w.
  rewrite getNextCandle_unfold, getPrevCandle_unfold.
  split; [ | split].
  - destruct (_ <=? _); [ | reflexivity].
    intros H. apply readCandle_not_bound_error in H. intuition congruence.
  - destruct (_ >=? _); [ | reflexivity].
    intros H. apply readCandle_not_bound_error in H. intuition congruence.
  - intros n. rewrite getCandleNumber_unfold.
    destruct (num_ltb _ _); [ | reflexivity].
    intros H. apply readCandle_not_bound_error in H. intuition congruence.
Qed.

Lemma failed_bound_check_keeps_cursor_witness :
  fst (getPrevCandle sample_parserData world400) = Throw AlreadyAtStartOfFile
  /\ snd (getPrevCandle sample_parserData world400) = world400
  /\ fst (getCandleNumber sample_parserData 1000 world400) = Throw FileTooSmall
  /\ byteOffset (parser (snd (getCandleNumber sample_parserData 1000 world400)))
     = byteOffset (parser world400).
Proof.
  destruct (failed_bound_check_keeps_cursor Z IntegerIndex sample_parserData
              world400) as (_ & Hprev & Hseek).
  assert (H1 : fst (getPrevCandle sample_parserData world400)
               = Throw AlreadyAtStartOfFile) by (vm_compute; reflexivity).
  assert (H2 : fst (getCandleNumber sample_parserData 1000 world400)
               = Throw FileTooSmall) by (vm_compute; reflexivity).
  split; [exact H1 | ].
  split; [exact (Hprev H1) | ].
  split; [exact H2 | exact (Hseek 1000 H2)].
Defined.

(** ** [getCandleNumber] and the stored offset *)

Section SeekIgnored.

Context {num : Type} {A : JsArith num}.
Variable parserData : Z -> option FieldTable.

Lemma decodeEntry_same_source (c : Candle) (entry : string * FieldData)
  (w1 w2 : World num) :
  same_source w1 w2 ->
  fst (decodeEntry c entry w1) = fst (decodeEntry c entry w2).
Proof.
  intros (Hfd & Hv & Ho). destruct entry as [key data]. unfold decodeEntry.
  destruct (is_defined (value data)); [reflexivity | ].
  unfold bind, this, readSync, lift, ret. cbn. rewrite Hfd, Hv, Ho.
  destruct (readSync_pure _ _ _ _); cbn; [ | reflexivity].
  destruct (parserFunctions _ _ _); reflexivity.
Qed.

Lemma forEach_same_source (entries : FieldTable) :
  forall (c : Candle) (w1 w2 : World num),
    same_source w1 w2 ->
    fst (forEach entries c w1) = fst (forEach entries c w2).
Proof.
  induction entries as [|entry rest IH]; intros c w1 w2 Hsame.
  - reflexivity.
  - cbn [forEach]. unfold bind.
    pose proof (decodeEntry_same_source c entry w1 w2 Hsame) as Hfst.
    destruct (decodeEntry_effect c entry w1) as (Hp1 & _).
    destruct (decodeEntry_effect c entry w2) as (Hp2 & _).
    destruct (decodeEntry c entry w1) as [r1 w1'].
    destruct (decodeEntry c entry w2) as [r2 w2']. cbn [fst snd] in *.
    subst r2. destruct r1 as [c'|e]; [ | reflexivity].
    apply IH. unfold same_source. rewrite Hp1, Hp2. exact Hsame.
Qed.

Lemma readCandle_same_source (w1 w2 : World num) :
  same_source w1 w2 ->
  fst (readCandle parserData w1) = fst (readCandle parserData w2).
Proof.
  intros (Hfd & Hv & Ho). rewrite !readCandle_unfold, Hv.
  destruct (parserData (version (parser w2))) as [entries|]; [ | reflexivity].
  apply forEach_same_source. unfold same_source.
  rewrite !parser_clamped. cbn. rewrite Hfd, Hv, Ho. repeat split.
Qed.

(** Two record numbers that both pass the size check get the same
    candle: the one at the offset stored before the call. *)
Lemma getCandleNumber_same_candle (n m : num) (w : World num) :
  num_ltb (newByteOffset (parser w) n) (of_Z (filesize (parser w))) = true ->
  num_ltb (newByteOffset (parser w) m) (of_Z (filesize (parser w))) = true ->
  fst (getCandleNumber parserData n w) = fst (getCandleNumber parserData m w)
  /\ fst (getCandleNumber parserData n w) = fst (readCandle parserData w).
Proof.
  intros Hn Hm. rewrite !getCandleNumber_unfold, Hn, Hm.
  split; apply readCandle_same_source; repeat split.
Qed.

End SeekIgnored.

(** C2 on the sample file: five hourly records, freshly opened.
    [getCandleNumber(2)] stores 2 in [candleNumber] and passes the size
    check (148 + 2 * 44 = 236 < 368), but the candle it returns is record
    0 (time 1000000000 s), not record 2 (time 1000007200 s): the computed
    position is never stored, [byteOffset] ends at 148, and all its reads
    are in the 44 bytes from 148 on. *)
Theorem getCandleNumber_decodes_stored_offset :
  let call := getCandleNumber sample_parserData 2 world400 in
  newByteOffset (parser world400) 2 = 236
  /\ spec_int32_at sample_file400 236 = 1000007200
  /\ spec_int32_at sample_file400 148 = 1000000000
  /\ (exists candle,
        fst call = Ok candle
        /\ timestamp_getTime candle = Ok (1000000000 * 1000))
  /\ candleNumber (parser (snd call)) = 2
  /\ byteOffset (parser (snd call)) = 148
  /\ exists new,
       reads (snd call) = reads world400 ++ new
       /\ Forall (fun ev => 148 <= read_position ev
                            /\ read_position ev + Z.of_N (read_length ev) <= 192)
            new.
Proof.
  cbv zeta.
  split; [vm_compute; reflexivity | ].
  split; [vm_compute; reflexivity | ].
  split; [vm_compute; reflexivity | ].
  split.
  { eexists. split; vm_compute; reflexivity. }
  split; [vm_compute; reflexivity | ].
  split; [vm_compute; reflexivity | ].
  eexists. split; [vm_compute; reflexivity | ].
  repeat constructor; vm_compute; discriminate.
Qed.

(** ** The cursor invariant of the sequential operations *)

(** C1, as stated, fails already at the first step: after the first
    [getNextCandle] on the sample file the cursor is at offset 148 with
    record number 1, and 148 + 1 * 44 is 192. *)
Lemma first_step_offset_mismatch :
  let w1 := snd (getNextCandle sample_parserData world400) in
  open400 = Ok world400
  /\ (exists candle, fst (getNextCandle sample_parserData world400) = Ok candle)
  /\ byteOffset (parser w1) = 148
  /\ 148 + candleNumber (parser w1) * candleByteSize (parser w1) = 192
  /\ byteOffset (parser w1)
     <> 148 + candleNumber (parser w1) * candleByteSize (parser w1).
Proof.
  cbv zeta.
  split; [exact open400_world | ].
  split; [eexists; vm_compute; reflexivity | ].
  split; [vm_compute; reflexivity | ].
  split; [vm_compute; reflexivity | ].
  vm_compute. discriminate.
Qed.


(** C1, amended.  On a parser that is opened and then driven by
    [getNextCandle] and [getPrevCandle] only, after every call
    [byteOffset] equals 148 + (candleNumber - 1) * candleByteSize. *)
Theorem sequential_cursor_invariant :
  forall (parserData : Z -> option FieldTable) (toString : Buffer -> string)
         (w : World Z),
    Sequential parserData toString w ->
    byteOffset (parser w)
    = 148 + (candleNumber (parser w) - 1) * candleByteSize (parser w).
Proof.
  intros parserData toString w Hseq.
  apply (Sequential_on_previous_record parserData toString w Hseq).
Qed.

Lemma sequential_cursor_invariant_witness :
  let w2 := snd (getNextCandle sample_parserData
                   (snd (getNextCandle sample_parserData world400))) in
  Sequential sample_parserData ascii_toString w2
  /\ candleNumber (parser w2) = 2
  /\ byteOffset (parser w2)
     = 148 + (candleNumber (parser w2) - 1) * candleByteSize (parser w2).
Proof.
  cbv zeta.
  assert (Hseq : Sequential sample_parserData ascii_toString
                   (snd (getNextCandle sample_parserData
                           (snd (getNextCandle sample_parserData world400))))).
  { apply seq_next, seq_next.
    apply (seq_open _ _ (Some sample_file400)). vm_compute. reflexivity. }
  split; [exact Hseq | ].
  split; [vm_compute; reflexivity | ].
  exact (sequential_cursor_invariant sample_parserData ascii_toString _ Hseq).
Defined.

(** ** Which decodes succeed *)

Lemma readInt32LE_ok_iff (buf : Buffer) :
  (exists n, readInt32LE buf = Ok n) <-> (4 <= List.length buf)%nat.
Proof.
  destruct buf as [|b0 [|b1 [|b2 [|b3 rest]]]]; cbn; split;
    try (intros [n Hn]; discriminate); try lia.
  intros _. eexists. reflexivity.
Qed.

Lemma readDoubleLE_ok_iff (buf : Buffer) :
  (exists bits, readDoubleLE buf = Ok bits) <-> (8 <= List.length buf)%nat.
Proof.
  unfold readDoubleLE. destruct (8 <=? List.length buf)%nat eqn:E.
  - apply Nat.leb_le in E. split; [intros _; exact E | eexists; reflexivity].
  - apply Nat.leb_gt in E. split; [intros [bits Hb]; discriminate | lia].
Qed.

Lemma parserFunctions_ok_iff (v : Z) (ty : option FieldType) (buf : Buffer) :
  (exists x, parserFunctions v ty buf = Ok x)
  <-> accepts ty (N.of_nat (List.length buf)) = true.
Proof.
  pose proof (readInt32LE_ok_iff buf) as H32.
  pose proof (readDoubleLE_ok_iff buf) as H64.
  unfold parserFunctions, accepts.
  destruct ty as [[ | | ]|]; try rewrite N.leb_le.
  - destruct (readInt32LE buf) as [n|e].
    + split; [intros _ | intros _; eexists; reflexivity].
      assert (4 <= List.length buf)%nat by (apply H32; eexists; reflexivity).
      lia.
    + split; [intros [x Hx]; discriminate | intros Hle].
      assert (Hn : exists n, Throw e = Ok n) by (apply H32; lia).
      destruct Hn as [n Hn]. discriminate.
  - destruct (readDoubleLE buf) as [n|e].
    + split; [intros _ | intros _; eexists; reflexivity].
      assert (8 <= List.length buf)%nat by (apply H64; eexists; reflexivity).
      lia.
    + split; [intros [x Hx]; discriminate | intros Hle].
      assert (Hn : exists n, Throw e = Ok n) by (apply H64; lia).
      destruct Hn as [n Hn]. discriminate.
  - destruct (readInt32LE buf) as [n|e].
    + split; [intros _ | intros _; eexists; reflexivity].
      assert (4 <= List.length buf)%nat by (apply H32; eexists; reflexivity).
      lia.
    + split; [intros [x Hx]; discriminate | intros Hle].
      assert (Hn : exists n, Throw e = Ok n) by (apply H32; lia).
      destruct Hn as [n Hn]. discriminate.
  - split; [reflexivity | intros _; eexists; reflexivity].
Qed.

Section Decodable.

Context {num : Type}.

Lemma decodeEntry_ok_iff (c : Candle) (entry : string * FieldData)
  (w : World num) :
  0 <= byteOffset (parser w) ->
  (exists c', fst (decodeEntry c entry w) = Ok c') <-> decodable entry = true.
Proof.
  intros Hoff. destruct entry as [key data]. unfold decodeEntry, decodable.
  cbn [snd]. destruct (is_defined (value data)) as [v|].
  - cbn. split; [reflexivity | intros _; eexists; reflexivity].
  - unfold bind, this, readSync, lift, ret, readSync_pure. cbn.
    destruct (_ <? 0) eqn:E; [apply Z.ltb_lt in E; lia | clear E]. cbn.
    pose proof (parserFunctions_ok_iff (version (parser w)) (type data)
                  (overwrite (Buffer_alloc (or_zero (size data)))
                     (file_bytes (fd (parser w))
                        (byteOffset (parser w)
                         + Z.of_N (or_zero (position data)))
                        (or_zero (size data))))) as Hok.
    rewrite length_header_read, Nnat.N2Nat.id in Hok. rewrite <- Hok.
    destruct (parserFunctions _ _ _) as [x|e]; cbn.
    + split; intros _; eexists; reflexivity.
    + split; intros [x Hx]; discriminate.
Qed.

Lemma forEach_ok_iff (entries : FieldTable) :
  forall (c : Candle) (w : World num),
    0 <= byteOffset (parser w) ->
    (exists c', fst (forEach entries c w) = Ok c')
    <-> forallb decodable entries = true.
Proof.
  induction entries as [|entry rest IH]; intros c w Hoff.
  - cbn. split; [reflexivity | intros _; eexists; reflexivity].
  - cbn [forEach forallb]. unfold bind. rewrite andb_true_iff.
    pose proof (decodeEntry_ok_iff c entry w Hoff) as Hentry.
    destruct (decodeEntry_effect c entry w) as (Hp & _).
    destruct (decodeEntry c entry w) as [[c1|e1] w1]; cbn [fst snd] in *.
    + rewrite (IH c1 w1) by (rewrite Hp; exact Hoff).
      split; [intros Hrest | intros [_ Hrest]; exact Hrest].
      split; [apply Hentry; eexists; reflexivity | exact Hrest].
    + split.
      * intros [c' Hc']. discriminate.
      * intros [Hd _]. apply Hentry in Hd. destruct Hd as [c' Hc'].
        discriminate.
Qed.

(** A decode succeeds exactly when the table lists the version and every
    listed field is a constant or has room for its decoder: the position
    of the cursor plays no part. *)
Lemma readCandle_ok_iff (parserData : Z -> option FieldTable) (w : World num) :
  (exists c, fst (readCandle parserData w) = Ok c)
  <-> exists entries,
        parserData (version (parser w)) = Some entries
        /\ forallb decodable entries = true.
Proof.
  rewrite readCandle_unfold.
  destruct (parserData (version (parser w))) as [entries|].
  - rewrite forEach_ok_iff.
    + split.
      * intros Hd. exists entries. split; [reflexivity | exact Hd].
      * intros (entries' & Heq & Hd). inversion Heq. exact Hd.
    + rewrite parser_clamped. cbn. lia.
  - cbn. split.
    + intros [c Hc]. discriminate.
    + intros (entries & Heq & _). discriminate.
Qed.

End Decodable.

(** ** Forward then back *)




(** ** Date fields *)

Lemma get_set_same (key : string) (v : jsval) (c : Candle) :
  get_property key (set_property key v c) = v.
Proof.
  induction c as [|[k old] rest IH]; cbn.
  - rewrite String.eqb_refl. reflexivity.
  - destruct (String.eqb k key) eqn:E; cbn; rewrite E;
      [reflexivity | exact IH].
Qed.

Lemma get_set_other (key key' : string) (v : jsval) (c : Candle) :
  key' <> key ->
  get_property key (set_property key' v c) = get_property key c.
Proof.
  intros Hne. apply String.eqb_neq in Hne.
  induction c as [|[k old] rest IH]; cbn.
  - rewrite Hne. reflexivity.
  - destruct (String.eqb k key') eqn:E; cbn.
    + apply String.eqb_eq in E. subst k. rewrite Hne. reflexivity.
    + destruct (String.eqb k key); [reflexivity | exact IH].
Qed.

Section DateField.

Context {num : Type}.
Variables (key : string) (data : FieldData).
Hypothesis not_constant : is_defined (value data) = None.
Hypothesis date_type : type data = Some date.
Hypothesis four_bytes : (4 <= or_zero (size data))%N.

(** The timestamp the field yields when the cursor is at [offset]. *)
Let timestamp (p : HSTParser num) (offset : Z) : jsval :=
  let raw := spec_int32_at (fd p) (offset + Z.of_N (or_zero (position data))) in
  VDate (if version p =? 400 then raw * 1000 else raw).

Lemma decodeEntry_date (candleData : Candle) (w : World num) :
  0 <= byteOffset (parser w) ->
  fst (decodeEntry candleData (key, data) w)
  = Ok (set_property key (timestamp (parser w) (byteOffset (parser w)))
          candleData).
Proof.
  intros Hoff. unfold decodeEntry. rewrite not_constant, date_type.
  unfold bind, this, readSync, lift, ret, readSync_pure. cbn.
  destruct (_ <? 0) eqn:E; [apply Z.ltb_lt in E; lia | clear E]. cbn.
  rewrite readInt32LE_read by lia. reflexivity.
Qed.

Lemma decodeEntry_sets (c c1 : Candle) (entry : string * FieldData)
  (w : World num) :
  fst (decodeEntry c entry w) = Ok c1 ->
  exists v, c1 = set_property (fst entry) v c.
Proof.
  destruct entry as [k d]. unfold decodeEntry. cbn [fst].
  destruct (is_defined (value d)) as [v|].
  - cbn. intros Heq. inversion Heq. eexists. reflexivity.
  - unfold bind, this, readSync, lift, ret. cbn.
    destruct (readSync_pure _ _ _ _); cbn; [ | discriminate].
    destruct (parserFunctions _ _ _); cbn; [ | discriminate].
    intros Heq. inversion Heq. eexists. reflexivity.
Qed.

Lemma forEach_get_other (entries : FieldTable) :
  forall (c candle : Candle) (w : World num),
    ~ In key (map fst entries) ->
    fst (forEach entries c w) = Ok candle ->
    get_property key candle = get_property key c.
Proof.
  induction entries as [|entry rest IH]; intros c candle w Hnot Hrun.
  - cbn in Hrun. inversion Hrun. reflexivity.
  - cbn [forEach] in Hrun. unfold bind in Hrun.
    destruct (decodeEntry c entry w) as [[c1|e] w1] eqn:Hdec;
      [ | discriminate].
    destruct (decodeEntry_sets c c1 entry w) as [v Hc1];
      [rewrite Hdec; reflexivity | ].
    rewrite (IH c1 candle w1); [ | | exact Hrun].
    + subst c1. apply get_set_other. intros Heq. apply Hnot. left. exact Heq.
    + intros Hin. apply Hnot. right. exact Hin.
Qed.

Lemma forEach_date (entries : FieldTable) :
  forall (c candle : Candle) (w : World num),
    0 <= byteOffset (parser w) ->
    NoDup (map fst entries) ->
    In (key, data) entries ->
    fst (forEach entries c w) = Ok candle ->
    get_property key candle = timestamp (parser w) (byteOffset (parser w)).
Proof.
  induction entries as [|entry rest IH]; intros c candle w Hoff Hnodup Hin Hrun.
  - contradiction.
  - cbn [forEach] in Hrun. unfold bind in Hrun.
    cbn [map] in Hnodup. inversion Hnodup as [|k ks Hfresh Hrest]; subst.
    destruct (decodeEntry_effect c entry w) as (Hp & _).
    destruct Hin as [Hhead | Htail].
    + subst entry. pose proof (decodeEntry_date c w Hoff) as Hdec.
      destruct (decodeEntry c (key, data) w) as [[c1|e] w1];
        [ | discriminate].
      cbn [fst] in Hdec. inversion Hdec; subst c1.
      rewrite (forEach_get_other rest _ candle w1 Hfresh Hrun).
      apply get_set_same.
    + destruct (decodeEntry c entry w) as [[c1|e] w1]; [ | discriminate].
      cbn [snd] in Hp. rewrite <- Hp.
      apply (IH c1 candle w1); try assumption. rewrite Hp. exact Hoff.
Qed.

Lemma readCandle_date (parserData : Z -> option FieldTable)
  (entries : FieldTable) (candle : Candle) (w : World num) :
  parserData (version (parser w)) = Some entries ->
  NoDup (map fst entries) ->
  In (key, data) entries ->
  fst (readCandle parserData w) = Ok candle ->
  get_property key candle
  = timestamp (parser w) (Z.max 148 (byteOffset (parser w))).
Proof.
  intros Htable Hnodup Hin Hrun.
  rewrite readCandle_unfold, Htable in Hrun.
  rewrite (forEach_date entries [] candle (clamped w)); try assumption.
  - rewrite parser_clamped. reflexivity.
  - rewrite parser_clamped. cbn. lia.
Qed.

End DateField.

(** C5. A field of type [date] (not a constant, with room for four bytes)
    is decoded from the signed 32-bit little-endian integer at
    [byteOffset + position]: a version-400 file gives that integer times
    1000 as the timestamp, any other version gives the integer itself.
    This holds of the callback that decodes one field and of the candle
    [readCandle] returns, whose keys are distinct as those of an object
    are. *)
Theorem date_field_decoding :
  forall (num : Type) (key : string) (data : FieldData) (w : World num),
    is_defined (value data) = None ->
    type data = Some date ->
    (4 <= or_zero (size data))%N ->
    let raw_at := fun offset =>
      spec_int32_at (fd (parser w))
        (offset + Z.of_N (or_zero (position data))) in
    let timestamp_at := fun offset =>
      VDate (if version (parser w) =? 400 then raw_at offset * 1000
             else raw_at offset) in
    (forall offset, - 2 ^ 31 <= raw_at offset < 2 ^ 31)
    /\ (version (parser w) = 400 ->
        forall offset, timestamp_at offset = VDate (raw_at offset * 1000))
    /\ (version (parser w) <> 400 ->
        forall offset, timestamp_at offset = VDate (raw_at offset))
    /\ (0 <= byteOffset (parser w) ->
        forall candleData,
          fst (decodeEntry candleData (key, data) w)
          = Ok (set_property key (timestamp_at (byteOffset (parser w)))
                  candleData))
    /\ (forall parserData entries candle,
          parserData (version (parser w)) = Some entries ->
          NoDup (map fst entries) ->
          In (key, data) entries ->
          fst (readCandle parserData w) = Ok candle ->
          get_property key candle
          = timestamp_at (Z.max 148 (byteOffset (parser w)))).
Proof.
  intros num key data w Hval Hty Hsize raw_at timestamp_at.
  subst raw_at timestamp_at. cbv beta.
  split; [intros offset; apply spec_int32_at_range | ].
  split; [intros Hv offset; rewrite Hv; reflexivity | ].
  split.
  { intros Hv offset.
    destruct (version (parser w) =? 400) eqn:E;
      [apply Z.eqb_eq in E; contradiction | reflexivity]. }
  split.
  - intros Hoff candleData.
    apply (decodeEntry_date key data Hval Hty Hsize candleData w Hoff).
  - intros parserData entries candle Htable Hnodup Hin Hrun.
    apply (readCandle_date key data Hval Hty Hsize parserData entries candle w
             Htable Hnodup Hin Hrun).
Qed.

Lemma date_field_decoding_witness :
  let data := read_field date 4 0 in
  is_defined (value data) = None
  /\ type data = Some date
  /\ (4 <= or_zero (size data))%N
  /\ version (parser world400) = 400
  /\ sample_parserData (version (parser world400)) = Some layout400
  /\ NoDup (map fst layout400)
  /\ In ("timestamp"%string, data) layout400
  /\ spec_int32_at sample_file400 148 = 1000000000
  /\ exists candle,
       fst (readCandle sample_parserData world400) = Ok candle
       /\ get_property "timestamp" candle = VDate (1000000000 * 1000).
Proof.
  cbv zeta.
  assert (H1 : is_defined (value (read_field date 4 0)) = None)
    by reflexivity.
  assert (H2 : type (read_field date 4 0) = Some date) by reflexivity.
  assert (H3 : (4 <= or_zero (size (read_field date 4 0)))%N)
    by (vm_compute; discriminate).
  assert (H4 : version (parser world400) = 400) by reflexivity.
  assert (H5 : sample_parserData (version (parser world400)) = Some layout400)
    by reflexivity.
  assert (H6 : NoDup (map fst layout400)).
  { repeat constructor; cbn; intuition discriminate. }
  assert (H7 : In ("timestamp"%string, read_field date 4 0) layout400)
    by (left; reflexivity).
  split; [exact H1 | ]. split; [exact H2 | ]. split; [exact H3 | ].
  split; [exact H4 | ]. split; [exact H5 | ]. split; [exact H6 | ].
  split; [exact H7 | ]. split; [vm_compute; reflexivity | ].
  destruct (fst (readCandle sample_parserData world400)) as [candle|e] eqn:Hrun;
    [ | vm_compute in Hrun; discriminate].
  exists candle. split; [reflexivity | ].
  destruct (date_field_decoding Z "timestamp"%string (read_field date 4 0)
              world400 H1 H2 H3) as (_ & _ & _ & _ & Hrecord).
  rewrite (Hrecord sample_parserData layout400 candle H5 H6 H7 Hrun).
  vm_compute. reflexivity.
Defined.

(** ** Search by date: termination *)

Section Search.

Context {num : Type} {A : JsArith num} {D : JsDiv num}.
Variable parserData : Z -> option FieldTable.

(** A call that has returned returns the same with more fuel. *)
Lemma getCandleAt_more_fuel (fuel : nat) :
  forall (date : Z) (startDate : jsval) (i : nat) (w : World num)
         (r : result Candle * World num),
    getCandleAt parserData fuel date startDate i w = Some r ->
    forall extra,
      getCandleAt parserData (fuel + extra) date startDate i w = Some r.
Proof.
  induction fuel as [|fuel IH]; intros date startDate i w r Hr extra.
  - discriminate.
  - cbn [getCandleAt Nat.add] in *.
    destruct (getTime (parser w) startDate) as [startTime|e]; [ | exact Hr].
    destruct (getCandleNumber parserData _ w) as [[candle|e] w1]; [ | exact Hr].
    destruct (timestamp_getTime candle) as [ts|e]; [ | exact Hr].
    destruct (ts =? date); [exact Hr | ].
    destruct ((i <? 50)%nat && negb (ts =? 0)); [apply IH; exact Hr | ].
    destruct (i <? 50)%nat; [ | exact Hr].
    destruct (getCandleNumber parserData _ w1) as [[candle'|e] w2];
      [apply IH; exact Hr | exact Hr].
Qed.

(** Attempt [i] needs at most [51 - i] nested calls. *)
Lemma getCandleAt_total (fuel : nat) :
  forall (date : Z) (startDate : jsval) (i : nat) (w : World num),
    (50 - i < fuel)%nat ->
    exists r, getCandleAt parserData fuel date startDate i w = Some r.
Proof.
  induction fuel as [|fuel IH]; intros date startDate i w Hfuel.
  - lia.
  - cbn [getCandleAt].
    destruct (getTime (parser w) startDate) as [startTime|e];
      [ | eexists; reflexivity].
    destruct (getCandleNumber parserData _ w) as [[candle|e] w1];
      [ | eexists; reflexivity].
    destruct (timestamp_getTime candle) as [ts|e]; [ | eexists; reflexivity].
    destruct (ts =? date); [eexists; reflexivity | ].
    destruct (i <? 50)%nat eqn:Ei.
    + apply Nat.ltb_lt in Ei. cbn [andb].
      destruct (negb (ts =? 0)); [apply IH; lia | ].
      destruct (getCandleNumber parserData _ w1) as [[candle'|e] w2];
        [apply IH; lia | eexists; reflexivity].
    + cbn [andb]. eexists. reflexivity.
Qed.

Lemma timestamp_property (candle : Candle) (ts : Z) :
  timestamp_getTime candle = Ok ts ->
  get_property "timestamp" candle = VDate ts.
Proof.
  unfold timestamp_getTime.
  destruct (get_property "timestamp" candle); congruence.
Qed.

End Search.

(** * Further properties *)

(** ** Opening a file *)

Lemma readInt32LE_header_read (bytes : list byte) (pos : Z) :
  0 <= pos ->
  readInt32LE (header_read bytes 4 pos) = Ok (spec_int32_at bytes pos).
Proof. intros Hpos. unfold header_read. apply readInt32LE_read; lia. Qed.

Lemma constructor_some (num : Type) (A : JsArith num)
  (toString : Buffer -> string) (bytes : list byte) :
  constructor toString (Some bytes)
  = if Z.of_nat (List.length bytes) <? 148 then Throw FileTooSmall
    else
      let size := if spec_int32_at bytes 0 =? 400 then 44 else 60 in
      Ok (Build_World
            (Build_HSTParser (spec_int32_at bytes 0)
               (toString (header_read bytes 12 68)) (spec_int32_at bytes 80)
               (spec_int32_at bytes 148 * 1000) (of_Z 0) bytes (148 - size)
               size (Z.of_nat (List.length bytes)))
            [Build_ReadEvent 0 4; Build_ReadEvent 68 12; Build_ReadEvent 80 4;
             Build_ReadEvent 148 4]).
Proof.
  unfold constructor. destruct (_ <? 148); [reflexivity | ]. cbn zeta.
  change (0 + (64 + 4)) with 68. change (68 + 12) with 80.
  rewrite !readInt32LE_header_read by lia. reflexivity.
Qed.

(** X1. [new HSTParser(filename)] throws "Could not find file" exactly
    when the path does not exist, the system error of [fs.openSync]
    exactly when the path exists and cannot be opened for reading and
    writing, "File too small" exactly when it opens and has fewer than
    148 bytes, and returns a parser exactly when it opens and has at
    least 148 bytes; that parser holds the file, and its [filesize] is
    the length of the file. *)
Theorem constructor_outcome :
  forall (num : Type) (A : JsArith num) (toString : Buffer -> string)
         (path : Path),
    (new_HSTParser (num := num) toString path = Throw CouldNotFindFile
     <-> path = NoSuchFile)
    /\ (forall code,
          new_HSTParser (num := num) toString path = Throw (SystemError code)
          <-> path = CannotOpen code)
    /\ (new_HSTParser (num := num) toString path = Throw FileTooSmall
        <-> exists bytes,
              path = Opens bytes /\ Z.of_nat (List.length bytes) < 148)
    /\ ((exists w : World num, new_HSTParser toString path = Ok w)
        <-> exists bytes,
              path = Opens bytes /\ 148 <= Z.of_nat (List.length bytes))
    /\ (forall w : World num, new_HSTParser toString path = Ok w ->
          path = Opens (fd (parser w))
          /\ constructor toString (Some (fd (parser w))) = Ok w
          /\ filesize (parser w) = Z.of_nat (List.length (fd (parser w)))
          /\ 148 <= filesize (parser w)).
Proof.
  intros num A toString path. destruct path as [ | code0 | bytes].
  - cbn. split; [split; reflexivity | ].
    split.
    { intros code. split; discriminate. }
    split.
    { split; [discriminate | ]. intros (b & Hb & _). discriminate. }
    split.
    { split.
      - intros [w Hw]. discriminate.
      - intros (b & Hb & _). discriminate. }
    intros w Hw. discriminate.
  - cbn. split; [split; discriminate | ].
    split.
    { intros code. split; intros Heq; inversion Heq; reflexivity. }
    split.
    { split; [discriminate | ]. intros (b & Hb & _). discriminate. }
    split.
    { split.
      - intros [w Hw]. discriminate.
      - intros (b & Hb & _). discriminate. }
    intros w Hw. discriminate.
  - cbn [new_HSTParser].
    pose proof (constructor_some num A toString bytes) as Hsome.
    destruct (Z.of_nat (List.length bytes) <? 148) eqn:E;
      [apply Z.ltb_lt in E | apply Z.ltb_ge in E]; cbv zeta in Hsome;
      rewrite Hsome.
    + split; [split; discriminate | ].
      split.
      { intros code. split; discriminate. }
      split.
      { split; [ | reflexivity].
        intros _. exists bytes. split; [reflexivity | exact E]. }
      split.
      { split.
        - intros [w Hw]. discriminate.
        - intros (b & Hb & Hle). inversion Hb; subst b. lia. }
      intros w Hw. discriminate.
    + split; [split; discriminate | ].
      split.
      { intros code. split; discriminate. }
      split.
      { split; [discriminate | ].
        intros (b & Hb & Hlt). inversion Hb; subst b. lia. }
      split.
      { split.
        - intros _. exists bytes. split; [reflexivity | exact E].
        - intros _. eexists. reflexivity. }
      intros w Hw. injection Hw as Hw. subst w.
      cbn [parser fd filesize].
      split; [reflexivity | ]. split; [exact Hsome | ].
      split; [reflexivity | exact E].
Qed.

Lemma constructor_outcome_witness :
  new_HSTParser (num := Z) ascii_toString (Opens sample_file400) = Ok world400
  /\ filesize (parser world400) = Z.of_nat (List.length (fd (parser world400)))
  /\ 148 <= filesize (parser world400)
  /\ new_HSTParser (num := Z) ascii_toString (CannotOpen "EISDIR")
     = Throw (SystemError "EISDIR")
  /\ new_HSTParser (num := Z) ascii_toString (Opens (zero_bytes 147))
     = Throw FileTooSmall.
Proof.
  assert (Hopen : new_HSTParser (num := Z) ascii_toString (Opens sample_file400)
                  = Ok world400) by (vm_compute; reflexivity).
  split; [exact Hopen | ].
  destruct (constructor_outcome Z IntegerIndex ascii_toString
              (Opens sample_file400)) as (_ & _ & _ & _ & Hfile).
  destruct (Hfile world400 Hopen) as (_ & _ & Hsize & Hmin).
  split; [exact Hsize | ]. split; [exact Hmin | ].
  split.
  - apply (constructor_outcome Z IntegerIndex ascii_toString
             (CannotOpen "EISDIR")). reflexivity.
  - apply (constructor_outcome Z IntegerIndex ascii_toString
             (Opens (zero_bytes 147))).
    exists (zero_bytes 147). split; [reflexivity | vm_compute; reflexivity].
Defined.

(** ** How a decode ends *)

(** X2. [readCandle] throws a type error exactly when the table does not
    list the version, a range error exactly when it lists the version but
    some field that is read has fewer bytes than its decoder takes (four
    for [date] and [i32], eight for [double]), and returns a candle
    otherwise: the cursor and the contents of the file play no part. *)
Theorem readCandle_outcome :
  forall (num : Type) (parserData : Z -> option FieldTable) (w : World num),
    (fst (readCandle parserData w) = Throw TypeError
     <-> parserData (version (parser w)) = None)
    /\ (fst (readCandle parserData w) = Throw RangeError
        <-> exists entries,
              parserData (version (parser w)) = Some entries
              /\ forallb decodable entries = false)
    /\ ((exists candle, fst (readCandle parserData w) = Ok candle)
        <-> exists entries,
              parserData (version (parser w)) = Some entries
              /\ forallb decodable entries = true).
Proof.
  intros num parserData w.
  pose proof (readCandle_ok_iff parserData w) as Hok.
  split; [ | split; [ | exact Hok]].
  - rewrite readCandle_unfold.
    destruct (parserData (version (parser w))) as [entries|].
    + split; [ | discriminate]. intros Herr.
      destruct (forEach_effect entries [] (clamped w)) as (_ & _ & He).
      apply He in Herr. discriminate.
    + split; reflexivity.
  - split.
    + intros Herr.
      destruct (parserData (version (parser w))) as [entries|] eqn:Htable.
      * exists entries. split; [reflexivity | ].
        destruct (forallb decodable entries) eqn:Hd; [ | reflexivity].
        destruct (proj2 Hok) as [candle Hc];
          [exists entries; split; [reflexivity | exact Hd] | ].
        rewrite Hc in Herr. discriminate.
      * rewrite readCandle_unfold, Htable in Herr. discriminate.
    + intros (entries & Htable & Hd).
      destruct (fst (readCandle parserData w)) as [candle|e] eqn:Hrun.
      * assert (Hyes : exists entries',
                   parserData (version (parser w)) = Some entries'
                   /\ forallb decodable entries' = true)
          by (apply Hok; eexists; reflexivity).
        destruct Hyes as (entries' & Htable' & Hd').
        rewrite Htable in Htable'. inversion Htable'; subst entries'.
        rewrite Hd in Hd'. discriminate.
      * rewrite readCandle_unfold, Htable in Hrun.
        destruct (forEach_effect entries [] (clamped w)) as (_ & _ & He).
        rewrite (He e Hrun). reflexivity.
Qed.

(** ** What a decode reads *)

Section ReadLog.

Context {num : Type}.

Lemma decodeEntry_value (c : Candle) (key : string) (data : FieldData)
  (w : World num) :
  fst (decodeEntry c (key, data) w)
  = match field_value (parser w) data with
    | Ok v => Ok (set_property key v c)
    | Throw e => Throw e
    end.
Proof.
  unfold decodeEntry, field_value.
  destruct (is_defined (value data)); [reflexivity | ].
  unfold bind, this, readSync, lift, ret. cbn.
  destruct (readSync_pure _ _ _ _); cbn; [ | reflexivity].
  destruct (parserFunctions _ _ _); reflexivity.
Qed.

Lemma decodeEntry_reads (c : Candle) (entry : string * FieldData)
  (w : World num) :
  reads (snd (decodeEntry c entry w))
  = reads w ++ issued_reads (byteOffset (parser w)) [entry].
Proof.
  destruct entry as [key data]. unfold decodeEntry. cbn [issued_reads].
  destruct (is_defined (value data)).
  - cbn. rewrite app_nil_r. reflexivity.
  - unfold bind, this, readSync, lift, ret. cbn.
    destruct (readSync_pure _ _ _ _); cbn; [ | reflexivity].
    destruct (parserFunctions _ _ _); reflexivity.
Qed.

Lemma issued_reads_cons (offset : Z) (entry : string * FieldData)
  (rest : FieldTable) :
  issued_reads offset (entry :: rest)
  = issued_reads offset [entry] ++ issued_reads offset rest.
Proof.
  destruct entry as [key data]. cbn [issued_reads].
  destruct (is_defined (value data)); reflexivity.
Qed.

Lemma forEach_reads (entries : FieldTable) :
  forall (c candle : Candle) (w : World num),
    fst (forEach entries c w) = Ok candle ->
    reads (snd (forEach entries c w))
    = reads w ++ issued_reads (byteOffset (parser w)) entries.
Proof.
  induction entries as [|entry rest IH]; intros c candle w Hrun.
  - cbn. rewrite app_nil_r. reflexivity.
  - cbn [forEach] in *. unfold bind in *.
    pose proof (decodeEntry_reads c entry w) as Hr.
    destruct (decodeEntry_effect c entry w) as (Hp & _).
    destruct (decodeEntry c entry w) as [[c1|e] w1]; [ | discriminate].
    cbn [snd] in Hr, Hp.
    rewrite (IH c1 candle w1 Hrun), Hr, Hp, <- app_assoc.
    rewrite (issued_reads_cons _ entry rest). reflexivity.
Qed.

End ReadLog.

(** X3. A decode that returns a candle has issued exactly one read for
    each table entry that is not a constant, in the order of the table,
    of the entry's [size] (0 when absent) at [byteOffset] (raised to 148)
    plus the entry's [position] (0 when absent); an entry with a constant
    value is not read from the file. *)
Theorem readCandle_read_log :
  forall (num : Type) (parserData : Z -> option FieldTable) (w : World num)
         (entries : FieldTable) (candle : Candle),
    parserData (version (parser w)) = Some entries ->
    fst (readCandle parserData w) = Ok candle ->
    reads (snd (readCandle parserData w))
    = reads w ++ issued_reads (Z.max 148 (byteOffset (parser w))) entries.
Proof.
  intros num parserData w entries candle Htable Hrun.
  rewrite readCandle_unfold, Htable in *.
  rewrite (forEach_reads entries [] candle (clamped w) Hrun).
  rewrite reads_clamped, parser_clamped. reflexivity.
Qed.

Lemma readCandle_read_log_witness :
  sample_parserData (version (parser world400)) = Some layout400
  /\ (exists candle, fst (readCandle sample_parserData world400) = Ok candle)
  /\ reads (snd (readCandle sample_parserData world400))
     = reads world400
       ++ [Build_ReadEvent 148 4; Build_ReadEvent 152 8; Build_ReadEvent 160 8;
           Build_ReadEvent 168 8; Build_ReadEvent 176 8; Build_ReadEvent 184 8].
Proof.
  assert (Htable : sample_parserData (version (parser world400))
                   = Some layout400) by reflexivity.
  split; [exact Htable | ].
  destruct (fst (readCandle sample_parserData world400)) as [candle|e] eqn:Hrun;
    [ | vm_compute in Hrun; discriminate].
  split; [exists candle; reflexivity | ].
  rewrite (readCandle_read_log Z sample_parserData world400 layout400 candle
             Htable Hrun).
  vm_compute. reflexivity.
Defined.

(** ** The fields of a candle *)

Lemma keys_set_property_new (key : string) (v : jsval) (c : Candle) :
  ~ In key (map fst c) ->
  map fst (set_property key v c) = map fst c ++ [key].
Proof.
  induction c as [|[k old] rest IH]; intros Hnew.
  - reflexivity.
  - cbn in *. destruct (String.eqb k key) eqn:E.
    + apply String.eqb_eq in E. exfalso. apply Hnew. left. exact E.
    + cbn. rewrite IH; [reflexivity | ]. intros Hin. apply Hnew. right.
      exact Hin.
Qed.

Lemma keys_set_property (key : string) (v : jsval) (c : Candle) :
  forall k, In k (map fst (set_property key v c)) <-> k = key \/ In k (map fst c).
Proof.
  induction c as [|[k0 old] rest IH]; intros k.
  - cbn. intuition.
  - cbn. destruct (String.eqb k0 key) eqn:E.
    + apply String.eqb_eq in E. subst k0. cbn. intuition.
    + cbn. rewrite IH. intuition.
Qed.

Lemma NoDup_set_property (key : string) (v : jsval) (c : Candle) :
  NoDup (map fst c) -> NoDup (map fst (set_property key v c)).
Proof.
  induction c as [|[k old] rest IH]; intros Hnd.
  - cbn. constructor; [intros [] | constructor].
  - cbn in *. inversion Hnd as [|x xs Hfresh Hrest]; subst.
    destruct (String.eqb k key) eqn:E.
    + cbn. exact Hnd.
    + cbn. constructor.
      * rewrite keys_set_property. intros [Heq | Hin].
        -- subst k. rewrite String.eqb_refl in E. discriminate.
        -- contradiction.
      * apply IH. exact Hrest.
Qed.

Section CandleFields.

Context {num : Type}.

Lemma forEach_keys (entries : FieldTable) :
  forall (c candle : Candle) (w : World num),
    NoDup (map fst c ++ map fst entries) ->
    fst (forEach entries c w) = Ok candle ->
    map fst candle = map fst c ++ map fst entries.
Proof.
  induction entries as [|[key data] rest IH]; intros c candle w Hnd Hrun.
  - cbn in *. inversion Hrun. rewrite app_nil_r. reflexivity.
  - cbn [forEach] in Hrun. unfold bind in Hrun.
    pose proof (decodeEntry_value c key data w) as Hval.
    destruct (decodeEntry c (key, data) w) as [[c1|e] w1]; [ | discriminate].
    cbn [fst] in Hval.
    destruct (field_value (parser w) data) as [v|e]; [ | discriminate].
    inversion Hval; subst c1. cbn [map fst] in *.
    assert (Hnew : ~ In key (map fst c)).
    { apply NoDup_remove_2 in Hnd. intros Hin. apply Hnd.
      apply in_or_app. left. exact Hin. }
    rewrite (IH (set_property key v c) candle w1); [ | | exact Hrun].
    + rewrite keys_set_property_new by exact Hnew.
      rewrite <- app_assoc. reflexivity.
    + rewrite keys_set_property_new by exact Hnew.
      rewrite <- app_assoc. exact Hnd.
Qed.

Lemma forEach_value (key : string) (data : FieldData) (entries : FieldTable) :
  forall (c candle : Candle) (w : World num),
    NoDup (map fst entries) ->
    In (key, data) entries ->
    fst (forEach entries c w) = Ok candle ->
    field_value (parser w) data = Ok (get_property key candle).
Proof.
  induction entries as [|entry rest IH]; intros c candle w Hnd Hin Hrun.
  - contradiction.
  - cbn [forEach] in Hrun. unfold bind in Hrun.
    cbn [map] in Hnd. inversion Hnd as [|k ks Hfresh Hrest]; subst.
    destruct (decodeEntry_effect c entry w) as (Hp & _).
    destruct Hin as [Hhead | Htail].
    + subst entry. pose proof (decodeEntry_value c key data w) as Hval.
      destruct (decodeEntry c (key, data) w) as [[c1|e] w1];
        [ | discriminate].
      cbn [fst] in Hval.
      destruct (field_value (parser w) data) as [v|e]; [ | discriminate].
      inversion Hval; subst c1.
      rewrite (forEach_get_other key rest _ candle w1 Hfresh Hrun).
      rewrite get_set_same. reflexivity.
    + destruct (decodeEntry c entry w) as [[c1|e] w1]; [ | discriminate].
      cbn [snd] in Hp. rewrite <- Hp.
      apply (IH c1 candle w1); assumption.
Qed.

Lemma readCandle_value (parserData : Z -> option FieldTable)
  (key : string) (data : FieldData) (entries : FieldTable) (candle : Candle)
  (w : World num) :
  parserData (version (parser w)) = Some entries ->
  NoDup (map fst entries) ->
  In (key, data) entries ->
  fst (readCandle parserData w) = Ok candle ->
  field_value (parser (clamped w)) data = Ok (get_property key candle).
Proof.
  intros Htable Hnd Hin Hrun. rewrite readCandle_unfold, Htable in Hrun.
  apply (forEach_value key data entries [] candle (clamped w)); assumption.
Qed.

End CandleFields.

(** A byte of a filled buffer is the byte of the file at that place, zero
    past the end of the file. *)
Lemma nth_read (file : list byte) (pos : Z) (len : N) (k : nat) :
  0 <= pos -> (k < N.to_nat len)%nat ->
  nth k (overwrite (Buffer_alloc len) (file_bytes file pos len)) x00
  = spec_byte_at file (pos + Z.of_nat k).
Proof.
  intros Hpos Hk. unfold overwrite, Buffer_alloc, file_bytes, spec_byte_at.
  set (l := skipn (Z.to_nat pos) file).
  replace (nth (Z.to_nat (pos + Z.of_nat k)) file x00) with (nth k l x00)
    by (unfold l; rewrite nth_skipn; f_equal; lia).
  destruct (Nat.lt_ge_cases k (List.length (firstn (N.to_nat len) l)))
    as [Hin | Hout].
  - rewrite app_nth1 by exact Hin. rewrite nth_firstn.
    destruct (k <? N.to_nat len)%nat eqn:E; [reflexivity | ].
    apply Nat.ltb_ge in E. lia.
  - rewrite app_nth2 by exact Hout. rewrite nth_skipn, nth_repeat.
    rewrite length_firstn in Hout. symmetry. apply nth_overflow. lia.
Qed.

Lemma firstn8_nth (b : list byte) :
  (8 <= List.length b)%nat ->
  firstn 8 b = map (fun k => nth k b x00) [0; 1; 2; 3; 4; 5; 6; 7]%nat.
Proof.
  intros Hlen.
  destruct b as [|b0 [|b1 [|b2 [|b3 [|b4 [|b5 [|b6 [|b7 rest]]]]]]]];
    cbn in Hlen; try lia.
  reflexivity.
Qed.

Lemma readDoubleLE_read (file : list byte) (pos : Z) (len : N) :
  0 <= pos -> (8 <= len)%N ->
  readDoubleLE (overwrite (Buffer_alloc len) (file_bytes file pos len))
  = Ok (spec_bytes8_at file pos).
Proof.
  intros Hpos Hlen. unfold readDoubleLE.
  rewrite length_header_read.
  destruct (8 <=? N.to_nat len)%nat eqn:E; [ | apply Nat.leb_gt in E; lia].
  rewrite firstn8_nth by (rewrite length_header_read; lia).
  unfold spec_bytes8_at. cbn [map].
  rewrite !nth_read by lia. reflexivity.
Qed.

Section FieldKinds.

Context {num : Type}.
Variable parserData : Z -> option FieldTable.
Variables (w : World num) (entries : FieldTable) (candle : Candle).
Hypothesis listed : parserData (version (parser w)) = Some entries.
Hypothesis distinct_keys : NoDup (map fst entries).
Hypothesis returned : fst (readCandle parserData w) = Ok candle.

Lemma byteOffset_clamped_nonneg : 0 <= byteOffset (parser (clamped w)).
Proof. rewrite parser_clamped. cbn. lia. Qed.

Lemma field_value_read (data : FieldData) :
  is_defined (value data) = None ->
  field_value (parser (clamped w)) data
  = parserFunctions (version (parser w)) (type data)
      (overwrite (Buffer_alloc (or_zero (size data)))
         (file_bytes (fd (parser w))
            (Z.max 148 (byteOffset (parser w))
             + Z.of_N (or_zero (position data)))
            (or_zero (size data)))).
Proof.
  intros Hval. unfold field_value, readSync_pure. rewrite Hval.
  rewrite parser_clamped. cbn [parser moved byteOffset fd version].
  destruct (_ <? 0) eqn:E; [apply Z.ltb_lt in E; lia | reflexivity].
Qed.

Lemma i32_field (key : string) (data : FieldData) :
  In (key, data) entries ->
  is_defined (value data) = None ->
  type data = Some i32 ->
  get_property key candle
  = VNumber (spec_int32_at (fd (parser w))
               (Z.max 148 (byteOffset (parser w))
                + Z.of_N (or_zero (position data)))).
Proof.
  intros Hin Hval Hty.
  pose proof (readCandle_value parserData key data entries candle w listed
                distinct_keys Hin returned) as Hv.
  rewrite (field_value_read data Hval), Hty in Hv. cbn [parserFunctions] in Hv.
  destruct (readInt32LE _) as [n|e] eqn:Hread; [ | discriminate].
  assert (Hlen : (4 <= or_zero (size data))%N).
  { assert (Hl : (4 <= List.length
                        (overwrite (Buffer_alloc (or_zero (size data)))
                           (file_bytes (fd (parser w))
                              (Z.max 148 (byteOffset (parser w))
                               + Z.of_N (or_zero (position data)))
                              (or_zero (size data)))))%nat)
      by (apply readInt32LE_ok_iff; eexists; exact Hread).
    rewrite length_header_read in Hl. lia. }
  rewrite readInt32LE_read in Hread by lia.
  inversion Hread; subst n. inversion Hv. reflexivity.
Qed.

Lemma double_field (key : string) (data : FieldData) :
  In (key, data) entries ->
  is_defined (value data) = None ->
  type data = Some double ->
  get_property key candle
  = VDouble (spec_bytes8_at (fd (parser w))
               (Z.max 148 (byteOffset (parser w))
                + Z.of_N (or_zero (position data)))).
Proof.
  intros Hin Hval Hty.
  pose proof (readCandle_value parserData key data entries candle w listed
                distinct_keys Hin returned) as Hv.
  rewrite (field_value_read data Hval), Hty in Hv. cbn [parserFunctions] in Hv.
  destruct (readDoubleLE _) as [bits|e] eqn:Hread; [ | discriminate].
  assert (Hlen : (8 <= or_zero (size data))%N).
  { assert (Hl : (8 <= List.length
                        (overwrite (Buffer_alloc (or_zero (size data)))
                           (file_bytes (fd (parser w))
                              (Z.max 148 (byteOffset (parser w))
                               + Z.of_N (or_zero (position data)))
                              (or_zero (size data)))))%nat)
      by (apply readDoubleLE_ok_iff; eexists; exact Hread).
    rewrite length_header_read in Hl. lia. }
  rewrite readDoubleLE_read in Hread by lia.
  inversion Hread; subst bits. inversion Hv. reflexivity.
Qed.

Lemma constant_field_value (key : string) (data : FieldData) (v : jsval) :
  In (key, data) entries ->
  is_defined (value data) = Some v ->
  get_property key candle = v.
Proof.
  intros Hin Hval.
  pose proof (readCandle_value parserData key data entries candle w listed
                distinct_keys Hin returned) as Hv.
  unfold field_value in Hv. rewrite Hval in Hv. inversion Hv. reflexivity.
Qed.

Lemma untyped_field (key : string) (data : FieldData) :
  In (key, data) entries ->
  is_defined (value data) = None ->
  type data = None ->
  get_property key candle = VUndefined.
Proof.
  intros Hin Hval Hty.
  pose proof (readCandle_value parserData key data entries candle w listed
                distinct_keys Hin returned) as Hv.
  rewrite (field_value_read data Hval), Hty in Hv. inversion Hv. reflexivity.
Qed.

End FieldKinds.

(** X4. The candle a decode returns has the keys of the table entry of
    the file's version, each once and in the order of the table. *)
Theorem candle_keys :
  forall (num : Type) (parserData : Z -> option FieldTable) (w : World num)
         (entries : FieldTable) (candle : Candle),
    parserData (version (parser w)) = Some entries ->
    NoDup (map fst entries) ->
    fst (readCandle parserData w) = Ok candle ->
    map fst candle = map fst entries
    /\ List.length candle = List.length entries.
Proof.
  intros num parserData w entries candle Htable Hnd Hrun.
  rewrite readCandle_unfold, Htable in Hrun.
  assert (Hkeys : map fst candle = map fst entries).
  { apply (forEach_keys entries [] candle (clamped w)); assumption. }
  split; [exact Hkeys | ].
  rewrite <- (length_map fst candle), <- (length_map fst entries), Hkeys.
  reflexivity.
Qed.

Lemma candle_keys_witness :
  sample_parserData (version (parser world400)) = Some layout400
  /\ NoDup (map fst layout400)
  /\ exists candle,
       fst (readCandle sample_parserData world400) = Ok candle
       /\ map fst candle
          = ["timestamp"; "open"; "low"; "high"; "close"; "volume"; "spread";
             "realVolume"]%string.
Proof.
  assert (Htable : sample_parserData (version (parser world400))
                   = Some layout400) by reflexivity.
  assert (Hnd : NoDup (map fst layout400)).
  { repeat constructor; cbn; intuition discriminate. }
  split; [exact Htable | ]. split; [exact Hnd | ].
  destruct (fst (readCandle sample_parserData world400)) as [candle|e] eqn:Hrun;
    [ | vm_compute in Hrun; discriminate].
  exists candle. split; [reflexivity | ].
  exact (proj1 (candle_keys Z sample_parserData world400 layout400 candle
                  Htable Hnd Hrun)).
Defined.

(** X5. In the candle a decode returns, a field of type [i32] is the
    signed 32-bit little-endian integer at [byteOffset + position],
    whatever the version, and a field of type [double] is the double whose
    eight little-endian bytes are those at [byteOffset + position]; bytes
    past the end of the file count as zero. *)
Theorem number_field_decoding :
  forall (num : Type) (parserData : Z -> option FieldTable) (w : World num)
         (entries : FieldTable) (candle : Candle) (key : string)
         (data : FieldData),
    parserData (version (parser w)) = Some entries ->
    NoDup (map fst entries) ->
    fst (readCandle parserData w) = Ok candle ->
    In (key, data) entries ->
    is_defined (value data) = None ->
    let place := Z.max 148 (byteOffset (parser w))
                 + Z.of_N (or_zero (position data)) in
    (type data = Some i32 ->
     get_property key candle = VNumber (spec_int32_at (fd (parser w)) place))
    /\ (type data = Some double ->
        get_property key candle
        = VDouble (spec_bytes8_at (fd (parser w)) place)).
Proof.
  intros num parserData w entries candle key data Htable Hnd Hrun Hin Hval
    place.
  split; intros Hty.
  - apply (i32_field parserData w entries candle Htable Hnd Hrun key data);
      assumption.
  - apply (double_field parserData w entries candle Htable Hnd Hrun key data);
      assumption.
Qed.

(** X6. In the candle a decode returns, a table entry with a constant
    [value] gives that value, and an entry with neither a value nor a
    [type] gives [undefined] under its key (the key is present all the
    same). *)
Theorem constant_and_untyped_fields :
  forall (num : Type) (parserData : Z -> option FieldTable) (w : World num)
         (entries : FieldTable) (candle : Candle) (key : string)
         (data : FieldData),
    parserData (version (parser w)) = Some entries ->
    NoDup (map fst entries) ->
    fst (readCandle parserData w) = Ok candle ->
    In (key, data) entries ->
    In key (map fst candle)
    /\ (forall v, is_defined (value data) = Some v ->
                  get_property key candle = v)
    /\ (is_defined (value data) = None -> type data = None ->
        get_property key candle = VUndefined).
Proof.
  intros num parserData w entries candle key data Htable Hnd Hrun Hin.
  split.
  - assert (Hkeys : map fst candle = map fst entries).
    { rewrite readCandle_unfold, Htable in Hrun.
      apply (forEach_keys entries [] candle (clamped w)); assumption. }
    rewrite Hkeys. apply (in_map fst entries (key, data)). exact Hin.
  - split.
    + intros v Hval.
      apply (constant_field_value parserData w entries candle Htable Hnd Hrun
               key data v); assumption.
    + intros Hval Hty.
      apply (untyped_field parserData w entries candle Htable Hnd Hrun key
               data); assumption.
Qed.

Lemma open401_world :
  constructor (num := Z) ascii_toString (Some sample_file401) = Ok world401.
Proof. vm_compute. reflexivity. Qed.

Lemma number_field_decoding_witness :
  let w := snd (getNextCandle sample_parserData world401) in
  sample_parserData (version (parser w)) = Some layout401
  /\ NoDup (map fst layout401)
  /\ In ("spread"%string, read_field i32 4 48) layout401
  /\ is_defined (value (read_field i32 4 48)) = None
  /\ exists candle,
       fst (readCandle sample_parserData w) = Ok candle
       /\ get_property "spread" candle = VNumber 7.
Proof.
  cbv zeta.
  set (w := snd (getNextCandle sample_parserData world401)).
  assert (Htable : sample_parserData (version (parser w)) = Some layout401)
    by (vm_compute; reflexivity).
  assert (Hnd : NoDup (map fst layout401)).
  { repeat constructor; cbn; intuition discriminate. }
  assert (Hin : In ("spread"%string, read_field i32 4 48) layout401).
  { cbn. do 6 right. left. reflexivity. }
  assert (Hval : is_defined (value (read_field i32 4 48)) = None)
    by reflexivity.
  split; [exact Htable | ]. split; [exact Hnd | ]. split; [exact Hin | ].
  split; [exact Hval | ].
  destruct (fst (readCandle sample_parserData w)) as [candle|e] eqn:Hrun;
    [ | vm_compute in Hrun; discriminate].
  exists candle. split; [reflexivity | ].
  destruct (number_field_decoding Z sample_parserData w layout401 candle
              "spread"%string (read_field i32 4 48) Htable Hnd Hrun Hin Hval)
    as (Hint & _).
  rewrite (Hint eq_refl). vm_compute. reflexivity.
Defined.

Lemma constant_and_untyped_fields_witness :
  sample_parserData (version (parser world400)) = Some layout400
  /\ NoDup (map fst layout400)
  /\ In ("spread"%string, constant_field (VNumber 0)) layout400
  /\ exists candle,
       fst (readCandle sample_parserData world400) = Ok candle
       /\ get_property "spread" candle = VNumber 0.
Proof.
  assert (Htable : sample_parserData (version (parser world400))
                   = Some layout400) by reflexivity.
  assert (Hnd : NoDup (map fst layout400)).
  { repeat constructor; cbn; intuition discriminate. }
  assert (Hin : In ("spread"%string, constant_field (VNumber 0)) layout400).
  { cbn. do 6 right. left. reflexivity. }
  split; [exact Htable | ]. split; [exact Hnd | ]. split; [exact Hin | ].
  destruct (fst (readCandle sample_parserData world400)) as [candle|e] eqn:Hrun;
    [ | vm_compute in Hrun; discriminate].
  exists candle. split; [reflexivity | ].
  destruct (constant_and_untyped_fields Z sample_parserData world400 layout400
              candle "spread"%string (constant_field (VNumber 0)) Htable Hnd
              Hrun Hin) as (_ & Hconst & _).
  exact (Hconst (VNumber 0) eq_refl).
Defined.

(** ** What no method changes *)

Section Header.

Context {num : Type} {A : JsArith num}.
Variable parserData : Z -> option FieldTable.

Lemma same_header_refl (p : HSTParser num) : same_header p p.
Proof. repeat split. Qed.

Lemma same_header_trans (p q r : HSTParser num) :
  same_header p q -> same_header q r -> same_header p r.
Proof.
  unfold same_header. intros H1 H2.
  destruct H1 as (a1 & a2 & a3 & a4 & a5 & a6 & a7).
  destruct H2 as (b1 & b2 & b3 & b4 & b5 & b6 & b7).
  repeat split; congruence.
Qed.

Lemma same_header_moved (w : World num) (n : num) (o : Z) :
  same_header (parser (moved w n o)) (parser w).
Proof. repeat split. Qed.

Lemma same_header_readCandle (w : World num) :
  same_header (parser (snd (readCandle parserData w))) (parser w).
Proof.
  destruct (readCandle_effect parserData w) as (Hp & _).
  rewrite Hp, parser_clamped. repeat split.
Qed.

Lemma same_header_next (w : World num) :
  same_header (parser (snd (getNextCandle parserData w))) (parser w).
Proof.
  rewrite getNextCandle_unfold. destruct (_ <=? _).
  - eapply same_header_trans; [apply same_header_readCandle | ].
    apply same_header_moved.
  - apply same_header_refl.
Qed.

Lemma same_header_prev (w : World num) :
  same_header (parser (snd (getPrevCandle parserData w))) (parser w).
Proof.
  rewrite getPrevCandle_unfold. destruct (_ >=? _).
  - eapply same_header_trans; [apply same_header_readCandle | ].
    apply same_header_moved.
  - apply same_header_refl.
Qed.

Lemma same_header_number (n : num) (w : World num) :
  same_header (parser (snd (getCandleNumber parserData n w))) (parser w).
Proof.
  rewrite getCandleNumber_unfold. destruct (num_ltb _ _).
  - eapply same_header_trans; [apply same_header_readCandle | ].
    apply same_header_moved.
  - apply same_header_moved.
Qed.

(** What every [getCandleNumber] keeps, [getCandleAt] keeps. *)
Lemma getCandleAt_keeps {D : JsDiv num} (P : World num -> Prop) :
  (forall n w, P w -> P (snd (getCandleNumber parserData n w))) ->
  forall (fuel : nat) (date : Z) (startDate : jsval) (i : nat) (w : World num)
         (r : result Candle * World num),
    P w ->
    getCandleAt parserData fuel date startDate i w = Some r ->
    P (snd r).
Proof.
  intros Hstep. induction fuel as [|fuel IH]; intros date startDate i w r Hw Hr.
  - discriminate.
  - cbn [getCandleAt] in Hr.
    destruct (getTime (parser w) startDate) as [startTime|e];
      [ | inversion Hr; exact Hw].
    pose proof (Hstep (num_add (candleNumber (parser w))
                         (candleOffset (parser w) date startTime)) w Hw) as H1.
    destruct (getCandleNumber parserData _ w) as [[candle|e] w1];
      cbn [snd] in H1; [ | inversion Hr; exact H1].
    destruct (timestamp_getTime candle) as [ts|e]; [ | inversion Hr; exact H1].
    destruct (ts =? date); [inversion Hr; exact H1 | ].
    destruct ((i <? 50)%nat && negb (ts =? 0));
      [eapply IH; eassumption | ].
    destruct (i <? 50)%nat; [ | inversion Hr; exact H1].
    pose proof (Hstep (num_floor (num_div (candleNumber (parser w1)) (of_Z 2)))
                  w1 H1) as H2.
    destruct (getCandleNumber parserData _ w1) as [[candle'|e] w2];
      cbn [snd] in H2; [eapply IH; eassumption | inversion Hr; exact H2].
Qed.

(** The cursor stays on a record boundary inside the file. *)
Lemma on_boundary_readCandle (w : World num) :
  on_boundary (parser w) ->
  on_boundary (parser (snd (readCandle parserData w))).
Proof.
  intros (Hsz & Hlen & Hmin & Hmax & k & Hk & Hoff).
  destruct (readCandle_effect parserData w) as (Hp & _).
  rewrite Hp, parser_clamped. unfold on_boundary, moved.
  cbn [parser candleByteSize filesize fd byteOffset].
  split; [exact Hsz | ]. split; [exact Hlen | ]. split; [exact Hmin | ].
  split; [lia | ].
  destruct (Z_lt_ge_dec (byteOffset (parser w)) 148) as [Hlow | Hhigh].
  - exists 0. rewrite Z.max_l by lia. lia.
  - exists k. rewrite Z.max_r by lia. split; assumption.
Qed.

Lemma on_boundary_moved (w : World num) (n : num) :
  on_boundary (parser w) ->
  on_boundary (parser (moved w n (byteOffset (parser w)))).
Proof. intros H. exact H. Qed.

Lemma on_boundary_next (w : World num) :
  on_boundary (parser w) ->
  on_boundary (parser (snd (getNextCandle parserData w))).
Proof.
  intros Hb. rewrite getNextCandle_unfold.
  destruct (_ <=? _) eqn:E; [apply Z.leb_le in E | exact Hb].
  apply on_boundary_readCandle.
  destruct Hb as (Hsz & Hlen & Hmin & Hmax & k & Hk & Hoff).
  unfold on_boundary, moved. cbn [parser candleByteSize filesize fd byteOffset].
  split; [exact Hsz | ]. split; [exact Hlen | ]. split; [exact Hmin | ].
  split; [exact E | ].
  exists (k + 1). split; [lia | ]. rewrite Hoff. ring.
Qed.

Lemma on_boundary_prev (w : World num) :
  on_boundary (parser w) ->
  on_boundary (parser (snd (getPrevCandle parserData w))).
Proof.
  intros Hb. rewrite getPrevCandle_unfold.
  destruct (_ >=? 148) eqn:E; [ | exact Hb].
  rewrite Z.geb_leb in E. apply Z.leb_le in E.
  apply on_boundary_readCandle.
  destruct Hb as (Hsz & Hlen & Hmin & Hmax & k & Hk & Hoff).
  unfold on_boundary, moved. cbn [parser candleByteSize filesize fd byteOffset].
  split; [exact Hsz | ]. split; [exact Hlen | ]. split; [exact Hmin | ].
  split; [lia | ].
  exists (k - 1). split; [nia | ]. rewrite Hoff. ring.
Qed.

Lemma on_boundary_number (n : num) (w : World num) :
  on_boundary (parser w) ->
  on_boundary (parser (snd (getCandleNumber parserData n w))).
Proof.
  intros Hb. rewrite getCandleNumber_unfold. destruct (num_ltb _ _).
  - apply on_boundary_readCandle. exact Hb.
  - exact Hb.
Qed.

Lemma on_boundary_open (toString : Buffer -> string)
  (file : option (list byte)) (w : World num) :
  constructor toString file = Ok w -> on_boundary (parser w).
Proof.
  intros Hopen. destruct file as [bytes|]; [ | discriminate].
  rewrite constructor_some in Hopen.
  destruct (_ <? 148) eqn:E; [discriminate | apply Z.ltb_ge in E].
  cbv zeta in Hopen.
  destruct (spec_int32_at bytes 0 =? 400); injection Hopen as Hw; subst w;
    unfold on_boundary; cbn [parser candleByteSize filesize fd byteOffset].
  - split; [left; reflexivity | ]. split; [reflexivity | ].
    split; [exact E | ]. split; [lia | ]. exists (-1). lia.
  - split; [right; reflexivity | ]. split; [reflexivity | ].
    split; [exact E | ]. split; [lia | ]. exists (-1). lia.
Qed.

End Header.

(** X7. No method assigns the header: after any sequence of calls of
    [getNextCandle], [getPrevCandle], [getCandleNumber] and [getCandleAt],
    returning or throwing, [version], [symbol], [period], [start], the
    file, [candleByteSize] and [filesize] are what they were. *)
Theorem methods_keep_header :
  forall (num : Type) (A : JsArith num) (D : JsDiv num)
         (parserData : Z -> option FieldTable) (w0 w : World num),
    Reaches parserData w0 w ->
    same_header (parser w) (parser w0).
Proof.
  intros num A D parserData w0 w Hreach.
  induction Hreach as [ | w Hr IH | w Hr IH | w n Hr IH
                        | w fuel date startDate i r Hr IH Hat].
  - apply same_header_refl.
  - eapply same_header_trans; [apply same_header_next | exact IH].
  - eapply same_header_trans; [apply same_header_prev | exact IH].
  - eapply same_header_trans; [apply same_header_number | exact IH].
  - apply (getCandleAt_keeps parserData
             (fun w' => same_header (parser w') (parser w0))
             (fun n w' Hw' =>
                same_header_trans _ _ _ (same_header_number parserData n w') Hw')
             fuel date startDate i w r IH Hat).
Qed.

Lemma methods_keep_header_witness :
  let w := snd (getCandleNumber sample_parserData (inject_Z 3)
                  (snd (getNextCandle sample_parserData world400q))) in
  Reaches sample_parserData world400q w
  /\ cursor w = (inject_Z 3, 148)
  /\ same_header (parser w) (parser world400q).
Proof.
  cbv zeta.
  assert (Hreach : Reaches sample_parserData world400q
                     (snd (getCandleNumber sample_parserData (inject_Z 3)
                             (snd (getNextCandle sample_parserData world400q))))).
  { apply reach_number, reach_next, reach_start. }
  split; [exact Hreach | ].
  split; [vm_compute; reflexivity | ].
  exact (methods_keep_header Q ExactRational ExactRationalDiv sample_parserData
           world400q _ Hreach).
Defined.

(** X8. On a parser returned by the constructor, after any sequence of
    calls of the four methods the cursor is on a record boundary:
    [byteOffset] is 148 + k * candleByteSize for an integer k from -1 on,
    it lies between 148 - candleByteSize and [filesize], and
    [candleByteSize] is still 44 or 60.  [getCandleNumber] and
    [getCandleAt] never put it anywhere else, whatever record number they
    are given. *)
Theorem cursor_stays_on_boundary :
  forall (num : Type) (A : JsArith num) (D : JsDiv num)
         (parserData : Z -> option FieldTable) (toString : Buffer -> string)
         (file : option (list byte)) (w0 w : World num),
    constructor toString file = Ok w0 ->
    Reaches parserData w0 w ->
    on_boundary (parser w)
    /\ 148 - candleByteSize (parser w) <= byteOffset (parser w)
       <= filesize (parser w).
Proof.
  intros num A D parserData toString file w0 w Hopen Hreach.
  assert (Hb : on_boundary (parser w)).
  { induction Hreach as [ | w Hr IH | w Hr IH | w n Hr IH
                          | w fuel date startDate i r Hr IH Hat].
    - eapply on_boundary_open; eassumption.
    - apply on_boundary_next; exact IH.
    - apply on_boundary_prev; exact IH.
    - apply on_boundary_number; exact IH.
    - apply (getCandleAt_keeps parserData (fun w' => on_boundary (parser w'))
               (fun n w' Hw' => on_boundary_number parserData n w' Hw')
               fuel date startDate i w r IH Hat). }
  split; [exact Hb | ].
  destruct Hb as (Hsz & Hlen & Hmin & Hmax & k & Hk & Hoff). nia.
Qed.

Lemma cursor_stays_on_boundary_witness :
  let w := snd (getCandleNumber sample_parserData (inject_Z (-7))
                  (snd (getNextCandle sample_parserData world400q))) in
  constructor (num := Q) ascii_toString (Some sample_file400) = Ok world400q
  /\ Reaches sample_parserData world400q w
  /\ cursor w = (inject_Z (-7), 148)
  /\ on_boundary (parser w).
Proof.
  cbv zeta.
  assert (Hopen : constructor (num := Q) ascii_toString (Some sample_file400)
                  = Ok world400q) by (vm_compute; reflexivity).
  assert (Hreach : Reaches sample_parserData world400q
                     (snd (getCandleNumber sample_parserData (inject_Z (-7))
                             (snd (getNextCandle sample_parserData world400q))))).
  { apply reach_number, reach_next, reach_start. }
  split; [exact Hopen | ]. split; [exact Hreach | ].
  split; [vm_compute; reflexivity | ].
  exact (proj1 (cursor_stays_on_boundary Q ExactRational ExactRationalDiv
                  sample_parserData ascii_toString (Some sample_file400)
                  world400q _ Hopen Hreach)).
Defined.

(** ** Back then forward *)



(** ** Reading a file from the start *)

Lemma nexts_header (parserData : Z -> option FieldTable) (k : nat)
  (w : World Z) :
  same_header (parser (nexts parserData k w)) (parser w).
Proof.
  induction k as [|k IH]; cbn [nexts].
  - apply same_header_refl.
  - eapply same_header_trans; [apply same_header_next | exact IH].
Qed.

Lemma nexts_cursor (parserData : Z -> option FieldTable)
  (toString : Buffer -> string) (file : option (list byte)) (w0 : World Z) :
  constructor toString file = Ok w0 ->
  forall k : nat,
    148 + (Z.of_nat k - 1) * candleByteSize (parser w0) <= filesize (parser w0) ->
    cursor (nexts parserData k w0)
    = (Z.of_nat k, 148 + (Z.of_nat k - 1) * candleByteSize (parser w0)).
Proof.
  intros Hopen.
  destruct (constructor_initial_cursor_facts toString file w0 Hopen)
    as (Hsz & Hoff).
  assert (Hn0 : candleNumber (parser w0) = 0).
  { pose proof (on_previous_record_open toString file w0 Hopen)
      as (_ & _ & Hrel). nia. }
  remember (candleByteSize (parser w0)) as s eqn:Hs.
  assert (Hpos : 0 < s) by lia. clear Hsz.
  induction k as [|k IH]; intros Hfit.
  - cbn [nexts]. unfold cursor. rewrite Hn0, Hoff. f_equal; lia.
  - rewrite Nat2Z.inj_succ in *.
    replace ((Z.succ (Z.of_nat k) - 1) * s)
      with ((Z.of_nat k - 1) * s + s) in * by ring.
    assert (Hfit' : 148 + (Z.of_nat k - 1) * s <= filesize (parser w0)) by lia.
    specialize (IH Hfit').
    pose proof (f_equal fst IH) as Hn. pose proof (f_equal snd IH) as Ho.
    unfold cursor in Hn, Ho. cbn [fst snd] in Hn, Ho.
    destruct (nexts_header parserData k w0)
      as (_ & _ & _ & _ & _ & Hsize & Hfile).
    cbn [nexts]. rewrite getNextCandle_unfold, Ho, Hsize, Hfile, <- Hs.
    destruct (_ <=? _) eqn:E; [ | apply Z.leb_gt in E; lia].
    destruct (readCandle_effect parserData
                (moved (nexts parserData k w0)
                   (num_add (candleNumber (parser (nexts parserData k w0)))
                      (of_Z 1))
                   (148 + (Z.of_nat k - 1) * s + s))) as (Hp & _).
    unfold cursor. rewrite Hp, parser_clamped. unfold moved.
    cbn [parser candleNumber byteOffset num_add of_Z IntegerIndex].
    rewrite Hn.
    assert (Hk : 0 <= Z.of_nat k * s) by (apply Z.mul_nonneg_nonneg; lia).
    rewrite Z.max_r by lia.
    apply f_equal2; [lia | ring].
Qed.

(** X10. On a freshly opened parser, [k] calls of [getNextCandle] in a
    row whose positions fit ([148 + (k - 1) * candleByteSize <= filesize])
    leave record number [k] and offset [148 + (k - 1) * candleByteSize],
    and the call after them throws the end-of-file error exactly when
    [filesize < 148 + k * candleByteSize].  So on a file of [n] whole
    records the first [n + 1] calls get past the bound check, the last of
    them with the cursor at the end of the file, and call [n + 2] is the
    first to throw the end-of-file error. *)
Theorem sequential_scan :
  forall (parserData : Z -> option FieldTable) (toString : Buffer -> string)
         (file : option (list byte)) (w0 : World Z),
    constructor toString file = Ok w0 ->
    let size := candleByteSize (parser w0) in
    (forall k : nat,
        148 + (Z.of_nat k - 1) * size <= filesize (parser w0) ->
        cursor (nexts parserData k w0)
        = (Z.of_nat k, 148 + (Z.of_nat k - 1) * size)
        /\ (fst (getNextCandle parserData (nexts parserData k w0))
            = Throw AlreadyAtEndOfFile
            <-> filesize (parser w0) < 148 + Z.of_nat k * size))
    /\ (forall n : nat,
          filesize (parser w0) = 148 + Z.of_nat n * size ->
          (forall k : nat, (k <= n)%nat ->
             fst (getNextCandle parserData (nexts parserData k w0))
             <> Throw AlreadyAtEndOfFile)
          /\ cursor (nexts parserData (S n) w0)
             = (Z.of_nat n + 1, filesize (parser w0))
          /\ getNextCandle parserData (nexts parserData (S n) w0)
             = (Throw AlreadyAtEndOfFile, nexts parserData (S n) w0)).
Proof.
  intros parserData toString file w0 Hopen size. subst size.
  destruct (constructor_initial_cursor_facts toString file w0 Hopen)
    as (Hsz & _).
  assert (Hstep : forall k : nat,
             148 + (Z.of_nat k - 1) * candleByteSize (parser w0)
             <= filesize (parser w0) ->
             cursor (nexts parserData k w0)
             = (Z.of_nat k,
                148 + (Z.of_nat k - 1) * candleByteSize (parser w0))
             /\ (fst (getNextCandle parserData (nexts parserData k w0))
                 = Throw AlreadyAtEndOfFile
                 <-> filesize (parser w0)
                     < 148 + Z.of_nat k * candleByteSize (parser w0))).
  { intros k Hfit.
    pose proof (nexts_cursor parserData toString file w0 Hopen k Hfit) as Hc.
    split; [exact Hc | ].
    pose proof (f_equal snd Hc) as Ho. unfold cursor in Ho. cbn [snd] in Ho.
    destruct (nexts_header parserData k w0)
      as (_ & _ & _ & _ & _ & Hsize & Hfile).
    rewrite getNextCandle_unfold, Ho, Hsize, Hfile.
    destruct (_ <=? _) eqn:E;
      [apply Z.leb_le in E | apply Z.leb_gt in E].
    - split; [ | lia]. intros Herr.
      apply readCandle_not_bound_error in Herr. intuition congruence.
    - split; [intros _; lia | reflexivity]. }
  split; [exact Hstep | ].
  intros n Hfile. split; [ | split].
  - intros k Hk Herr.
    destruct (Hstep k) as (_ & Hiff); [nia | ]. apply Hiff in Herr. nia.
  - rewrite (nexts_cursor parserData toString file w0 Hopen (S n)) by nia.
    f_equal; [lia | ]. rewrite Hfile. nia.
  - assert (Hc : cursor (nexts parserData (S n) w0)
                 = (Z.of_nat (S n),
                    148 + (Z.of_nat (S n) - 1) * candleByteSize (parser w0)))
      by (apply (nexts_cursor parserData toString file w0 Hopen (S n)); nia).
    pose proof (f_equal snd Hc) as Ho. unfold cursor in Ho. cbn [snd] in Ho.
    destruct (nexts_header parserData (S n) w0)
      as (_ & _ & _ & _ & _ & Hsize & Hfsz).
    rewrite getNextCandle_unfold, Ho, Hsize, Hfsz.
    destruct (_ <=? _) eqn:E; [apply Z.leb_le in E; nia | reflexivity].
Qed.

Lemma sequential_scan_witness :
  constructor (num := Z) ascii_toString (Some sample_file400) = Ok world400
  /\ filesize (parser world400) = 148 + 5 * candleByteSize (parser world400)
  /\ cursor (nexts sample_parserData 6 world400) = (6, 368)
  /\ getNextCandle sample_parserData (nexts sample_parserData 6 world400)
     = (Throw AlreadyAtEndOfFile, nexts sample_parserData 6 world400).
Proof.
  assert (Hopen : constructor (num := Z) ascii_toString (Some sample_file400)
                  = Ok world400) by (vm_compute; reflexivity).
  assert (Hfile : filesize (parser world400)
                  = 148 + Z.of_nat 5 * candleByteSize (parser world400))
    by (vm_compute; reflexivity).
  split; [exact Hopen | ]. split; [exact Hfile | ].
  pose proof (sequential_scan sample_parserData ascii_toString
                (Some sample_file400) world400 Hopen) as Hscan.
  cbv zeta in Hscan. destruct Hscan as (_ & Hwhole).
  destruct (Hwhole 5%nat Hfile) as (_ & Hcur & Hend).
  split; [exact Hcur | exact Hend].
Defined.

(** ** Decoding at the end of the file *)

Lemma spec_byte_at_past_end (file : list byte) (offset : Z) :
  Z.of_nat (List.length file) <= offset -> spec_byte_at file offset = x00.
Proof.
  intros Hpast. unfold spec_byte_at. apply nth_overflow. lia.
Qed.

Lemma spec_int32_at_past_end (file : list byte) (offset : Z) :
  Z.of_nat (List.length file) <= offset -> spec_int32_at file offset = 0.
Proof.
  intros Hpast. unfold spec_int32_at.
  rewrite !spec_byte_at_past_end by lia. reflexivity.
Qed.

Lemma spec_bytes8_at_past_end (file : list byte) (offset : Z) :
  Z.of_nat (List.length file) <= offset ->
  spec_bytes8_at file offset = repeat x00 8.
Proof.
  intros Hpast. unfold spec_bytes8_at. cbn [map repeat].
  rewrite !spec_byte_at_past_end by lia. reflexivity.
Qed.

(** X11. [getNextCandle] only checks that the record it moves to starts
    at or before [filesize].  When the cursor is on the last whole record
    of the file (or the parser is fresh and the file is a bare header),
    the call does not throw the end-of-file error: it moves the cursor to
    the end of the file and decodes a record no byte of which exists, so
    that every [date] field of the candle is time 0, every [i32] field is
    0 and every [double] field has all bytes zero. *)
Theorem next_at_last_record :
  forall (num : Type) (A : JsArith num) (parserData : Z -> option FieldTable)
         (w : World num) (entries : FieldTable),
    filesize (parser w) = Z.of_nat (List.length (fd (parser w))) ->
    148 <= filesize (parser w) ->
    byteOffset (parser w) + candleByteSize (parser w) = filesize (parser w) ->
    parserData (version (parser w)) = Some entries ->
    NoDup (map fst entries) ->
    fst (getNextCandle parserData w) <> Throw AlreadyAtEndOfFile
    /\ byteOffset (parser (snd (getNextCandle parserData w)))
       = filesize (parser w)
    /\ (forallb decodable entries = true ->
        exists candle, fst (getNextCandle parserData w) = Ok candle)
    /\ (forall candle key data,
          fst (getNextCandle parserData w) = Ok candle ->
          In (key, data) entries ->
          is_defined (value data) = None ->
          (type data = Some date -> get_property key candle = VDate 0)
          /\ (type data = Some i32 -> get_property key candle = VNumber 0)
          /\ (type data = Some double ->
              get_property key candle = VDouble (repeat x00 8))).
Proof.
  intros num A parserData w entries Hlen Hmin Hlast Htable Hnd.
  rewrite getNextCandle_unfold.
  destruct (_ <=? _) eqn:E; [clear E | apply Z.leb_gt in E; lia].
  set (w1 := moved w (num_add (candleNumber (parser w)) (of_Z 1))
               (byteOffset (parser w) + candleByteSize (parser w))).
  assert (Hoff1 : Z.max 148 (byteOffset (parser w1)) = filesize (parser w)).
  { unfold w1, moved. cbn [parser byteOffset]. lia. }
  assert (Htable1 : parserData (version (parser w1)) = Some entries)
    by exact Htable.
  split.
  { intros Herr. apply readCandle_not_bound_error in Herr.
    intuition congruence. }
  split.
  { rewrite byteOffset_readCandle. exact Hoff1. }
  split.
  { intros Hd. apply readCandle_ok_iff. exists entries.
    split; [exact Htable1 | exact Hd]. }
  intros candle key data Hrun Hin Hval.
  assert (Hpast : Z.of_nat (List.length (fd (parser w1)))
                  <= Z.max 148 (byteOffset (parser w1))
                     + Z.of_N (or_zero (position data))).
  { rewrite Hoff1. unfold w1, moved. cbn [parser fd]. lia. }
  split; [ | split]; intros Hty.
  - assert (Hsize : (4 <= or_zero (size data))%N).
    { assert (Hv : field_value (parser (clamped w1)) data
                   = Ok (get_property key candle))
        by (apply (readCandle_value parserData key data entries candle w1);
            assumption).
      rewrite (field_value_read w1 data Hval), Hty in Hv.
      cbn [parserFunctions] in Hv.
      destruct (readInt32LE _) as [n|e] eqn:Hread; [ | discriminate].
      assert (Hl : (4 <= List.length
                          (overwrite (Buffer_alloc (or_zero (size data)))
                             (file_bytes (fd (parser w1))
                                (Z.max 148 (byteOffset (parser w1))
                                 + Z.of_N (or_zero (position data)))
                                (or_zero (size data)))))%nat)
        by (apply readInt32LE_ok_iff; eexists; exact Hread).
      rewrite length_header_read in Hl. lia. }
    rewrite (readCandle_date key data Hval Hty Hsize parserData entries candle
               w1 Htable1 Hnd Hin Hrun).
    cbv beta zeta. rewrite spec_int32_at_past_end by exact Hpast.
    destruct (version (parser w1) =? 400); reflexivity.
  - rewrite (i32_field parserData w1 entries candle Htable1 Hnd Hrun key data
               Hin Hval Hty).
    rewrite spec_int32_at_past_end by exact Hpast. reflexivity.
  - rewrite (double_field parserData w1 entries candle Htable1 Hnd Hrun key
               data Hin Hval Hty).
    rewrite spec_bytes8_at_past_end by exact Hpast. reflexivity.
Qed.

Lemma next_at_last_record_witness :
  let w := nexts sample_parserData 5 world400 in
  filesize (parser w) = Z.of_nat (List.length (fd (parser w)))
  /\ 148 <= filesize (parser w)
  /\ byteOffset (parser w) + candleByteSize (parser w) = filesize (parser w)
  /\ sample_parserData (version (parser w)) = Some layout400
  /\ NoDup (map fst layout400)
  /\ cursor w = (5, 324)
  /\ exists candle,
       fst (getNextCandle sample_parserData w) = Ok candle
       /\ get_property "timestamp" candle = VDate 0.
Proof.
  cbv zeta.
  set (w := nexts sample_parserData 5 world400).
  assert (H1 : filesize (parser w) = Z.of_nat (List.length (fd (parser w))))
    by (vm_compute; reflexivity).
  assert (H2 : 148 <= filesize (parser w)) by (vm_compute; discriminate).
  assert (H3 : byteOffset (parser w) + candleByteSize (parser w)
               = filesize (parser w)) by (vm_compute; reflexivity).
  assert (H4 : sample_parserData (version (parser w)) = Some layout400)
    by (vm_compute; reflexivity).
  assert (H5 : NoDup (map fst layout400)).
  { repeat constructor; cbn; intuition discriminate. }
  split; [exact H1 | ]. split; [exact H2 | ]. split; [exact H3 | ].
  split; [exact H4 | ]. split; [exact H5 | ].
  split; [vm_compute; reflexivity | ].
  destruct (next_at_last_record Z IntegerIndex sample_parserData w layout400
              H1 H2 H3 H4 H5) as (_ & _ & Hok & Hzero).
  destruct (Hok eq_refl) as [candle Hrun].
  exists candle. split; [exact Hrun | ].
  destruct (Hzero candle "timestamp"%string (read_field date 4 0) Hrun)
    as (Hdate & _); [left; reflexivity | reflexivity | ].
  exact (Hdate eq_refl).
Defined.

(** ** The bound of [getCandleNumber] *)

(** X12. For an integer record number [n], [getCandleNumber(n)] throws
    "File too small" exactly when [148 + n * candleByteSize >= filesize],
    and in every case leaves [n] in [candleNumber].  There is no lower
    bound: every negative [n] is accepted (the record size being positive
    and the file at least a header) and gets the candle at the stored
    offset, like any other accepted number. *)
Theorem getCandleNumber_bound :
  forall (parserData : Z -> option FieldTable) (w : World Z) (n : Z),
    (fst (getCandleNumber parserData n w) = Throw FileTooSmall
     <-> filesize (parser w) <= 148 + n * candleByteSize (parser w))
    /\ candleNumber (parser (snd (getCandleNumber parserData n w))) = n
    /\ (148 + n * candleByteSize (parser w) < filesize (parser w) ->
        fst (getCandleNumber parserData n w) = fst (readCandle parserData w)
        /\ byteOffset (parser (snd (getCandleNumber parserData n w)))
           = Z.max 148 (byteOffset (parser w)))
    /\ (n < 0 -> 0 < candleByteSize (parser w) -> 148 <= filesize (parser w) ->
        fst (getCandleNumber parserData n w) <> Throw FileTooSmall).
Proof.
  intros parserData w n.
  rewrite getCandleNumber_unfold. unfold newByteOffset.
  cbn [num_ltb num_add num_mul of_Z IntegerIndex].
  destruct (148 + n * candleByteSize (parser w) <? filesize (parser w)) eqn:E;
    [apply Z.ltb_lt in E | apply Z.ltb_ge in E].
  - split.
    { split; [ | lia]. intros Herr.
      apply readCandle_not_bound_error in Herr. intuition congruence. }
    split; [apply candleNumber_readCandle | ].
    split.
    { intros _. split.
      - apply readCandle_same_source. repeat split.
      - rewrite byteOffset_readCandle. reflexivity. }
    intros _ _ _ Herr.
    apply readCandle_not_bound_error in Herr. intuition congruence.
  - split; [split; [intros _; exact E | reflexivity] | ].
    split; [reflexivity | ].
    split; [intros Hlt; lia | ].
    intros Hneg Hsz Hmin. nia.
Qed.

Lemma getCandleNumber_bound_witness :
  148 + (-3) * candleByteSize (parser world400) < filesize (parser world400)
  /\ cursor (snd (getCandleNumber sample_parserData (-3) world400)) = (-3, 148)
  /\ fst (getCandleNumber sample_parserData (-3) world400)
     = fst (readCandle sample_parserData world400)
  /\ fst (getCandleNumber sample_parserData 5 world400) = Throw FileTooSmall.
Proof.
  assert (H1 : 148 + (-3) * candleByteSize (parser world400)
               < filesize (parser world400)) by (vm_compute; reflexivity).
  split; [exact H1 | ]. split; [vm_compute; reflexivity | ].
  destruct (getCandleNumber_bound sample_parserData world400 (-3))
    as (_ & _ & Hin & _).
  split; [exact (proj1 (Hin H1)) | ].
  destruct (getCandleNumber_bound sample_parserData world400 5)
    as (Hiff & _).
  apply Hiff. vm_compute. discriminate.
Defined.

(** ** What the search returns *)

Section SearchResult.

Context {num : Type} {A : JsArith num} {D : JsDiv num}.
Variable parserData : Z -> option FieldTable.

(** Decodes agree between worlds with the same file and version and with
    offsets that [readCandle] raises to the same place. *)
Lemma readCandle_same_place (w1 w2 : World num) :
  fd (parser w1) = fd (parser w2) ->
  version (parser w1) = version (parser w2) ->
  Z.max 148 (byteOffset (parser w1)) = Z.max 148 (byteOffset (parser w2)) ->
  fst (readCandle parserData w1) = fst (readCandle parserData w2).
Proof.
  intros Hfd Hv Ho. rewrite !readCandle_unfold, Hv.
  destruct (parserData (version (parser w2))) as [entries|]; [ | reflexivity].
  apply forEach_same_source. unfold same_source.
  rewrite !parser_clamped. cbn. rewrite Hfd, Hv, Ho. repeat split.
Qed.

(** A [getCandleNumber] that returns has decoded the stored offset and
    left the cursor where [readCandle] puts it. *)
Lemma getCandleNumber_returns (n : num) (w w1 : World num) (candle : Candle) :
  getCandleNumber parserData n w = (Ok candle, w1) ->
  fst (readCandle parserData w) = Ok candle
  /\ fd (parser w1) = fd (parser w)
  /\ version (parser w1) = version (parser w)
  /\ byteOffset (parser w1) = Z.max 148 (byteOffset (parser w)).
Proof.
  intros Hrun. rewrite getCandleNumber_unfold in Hrun.
  destruct (num_ltb _ _); [ | discriminate].
  pose proof (readCandle_effect parserData
                (moved w n (byteOffset (parser w)))) as (Hp & _).
  rewrite Hrun in Hp. cbn [snd] in Hp. rewrite parser_clamped in Hp.
  split.
  - rewrite <- (readCandle_same_source parserData
                  (moved w n (byteOffset (parser w))) w) by (repeat split).
    rewrite Hrun. reflexivity.
  - rewrite Hp. repeat split.
Qed.

Lemma getCandleAt_returns (fuel : nat) :
  forall (date : Z) (startDate : jsval) (i : nat) (w w' : World num)
         (candle : Candle),
    getCandleAt parserData fuel date startDate i w = Some (Ok candle, w') ->
    fst (readCandle parserData w) = Ok candle
    /\ timestamp_getTime candle = Ok date
    /\ byteOffset (parser w') = Z.max 148 (byteOffset (parser w)).
Proof.
  induction fuel as [|fuel IH]; intros date startDate i w w' candle Hrun.
  - discriminate.
  - cbn [getCandleAt] in Hrun.
    destruct (getTime (parser w) startDate) as [startTime|e];
      [ | discriminate].
    destruct (getCandleNumber parserData _ w) as [[c1|e] w1] eqn:Hseek;
      [ | discriminate].
    destruct (getCandleNumber_returns _ w w1 c1 Hseek)
      as (Hc1 & Hfd1 & Hv1 & Ho1).
    assert (Hsame1 : fst (readCandle parserData w1)
                     = fst (readCandle parserData w)).
    { apply readCandle_same_place; try assumption. rewrite Ho1. lia. }
    destruct (timestamp_getTime c1) as [ts|e] eqn:Hts; [ | discriminate].
    destruct (ts =? date) eqn:Eq.
    { apply Z.eqb_eq in Eq. inversion Hrun; subst.
      repeat split; assumption. }
    destruct ((i <? 50)%nat && negb (ts =? 0)).
    { destruct (IH _ _ _ _ _ _ Hrun) as (Hc & Ht & Ho).
      rewrite Hsame1 in Hc. rewrite Ho, Ho1.
      repeat split; try assumption. lia. }
    destruct (i <? 50)%nat; [ | discriminate].
    destruct (getCandleNumber parserData _ w1) as [[c2|e] w2] eqn:Hseek2;
      [ | discriminate].
    destruct (getCandleNumber_returns _ w1 w2 c2 Hseek2)
      as (Hc2 & Hfd2 & Hv2 & Ho2).
    destruct (IH _ _ _ _ _ _ Hrun) as (Hc & Ht & Ho).
    assert (Hsame2 : fst (readCandle parserData w2)
                     = fst (readCandle parserData w)).
    { apply readCandle_same_place; try congruence. rewrite Ho2, Ho1. lia. }
    rewrite Hsame2 in Hc. rewrite Ho, Ho2, Ho1.
    repeat split; try assumption. lia.
Qed.

End SearchResult.

(** X13. Whenever [getCandleAt] returns a candle, it is the candle of the
    record at the [byteOffset] stored before the call (raised to 148), and
    the time of that record is the target: the search never returns any
    other record of the file.  So when the record under the cursor decodes
    to another time than the target, [getCandleAt] returns no candle,
    whatever the anchor and the attempt counter. *)
Theorem getCandleAt_returns_current_record :
  forall (num : Type) (A : JsArith num) (D : JsDiv num)
         (parserData : Z -> option FieldTable) (fuel : nat) (date : Z)
         (startDate : jsval) (i : nat) (w : World num),
    (forall candle w',
        getCandleAt parserData fuel date startDate i w = Some (Ok candle, w') ->
        fst (readCandle parserData w) = Ok candle
        /\ timestamp_getTime candle = Ok date
        /\ byteOffset (parser w') = Z.max 148 (byteOffset (parser w)))
    /\ (forall current,
          fst (readCandle parserData w) = Ok current ->
          timestamp_getTime current <> Ok date ->
          forall candle w',
            getCandleAt parserData fuel date startDate i w
            <> Some (Ok candle, w')).
Proof.
  intros num A D parserData fuel date startDate i w. split.
  - intros candle w' Hrun.
    exact (getCandleAt_returns parserData fuel date startDate i w w' candle
             Hrun).
  - intros current Hcur Hother candle w' Hrun.
    destruct (getCandleAt_returns parserData fuel date startDate i w w' candle
                Hrun) as (Hc & Ht & _).
    rewrite Hcur in Hc. inversion Hc; subst current. contradiction.
Qed.

Lemma getCandleAt_returns_current_record_witness :
  let w := snd (getNextCandle sample_parserData world400q) in
  let run := getCandleAt sample_parserData 51 1000007200000 VUndefined 0 w in
  (exists current,
      fst (readCandle sample_parserData w) = Ok current
      /\ timestamp_getTime current = Ok 1000000000000
      /\ timestamp_getTime current <> Ok 1000007200000)
  /\ (exists w', run = Some (Throw FileTooSmall, w'))
  /\ forall candle w', run <> Some (Ok candle, w').
Proof.
  cbv zeta.
  set (w := snd (getNextCandle sample_parserData world400q)).
  destruct (fst (readCandle sample_parserData w)) as [current|e] eqn:Hcur;
    [ | vm_compute in Hcur; discriminate].
  assert (Hts : timestamp_getTime current = Ok 1000000000000).
  { vm_compute in Hcur. inversion Hcur. reflexivity. }
  assert (Hother : timestamp_getTime current <> Ok 1000007200000).
  { rewrite Hts. discriminate. }
  split; [exists current; repeat split; assumption | ].
  split; [eexists; vm_compute; reflexivity | ].
  destruct (getCandleAt_returns_current_record Q ExactRational ExactRationalDiv
              sample_parserData 51 1000007200000 VUndefined 0%nat w)
    as (_ & Hnone).
  exact (Hnone current Hcur Hother).
Defined.

(** ** Versions the table does not list *)

(** X14. When [isValidFormat] is false no method ever returns a candle:
    [readCandle] throws the type error, each cursor method throws either
    its own bound error or that type error, [getCandleAt] never returns a
    candle, and [isValidFormat] stays false whatever is called. *)
Theorem unsupported_version_never_decodes :
  forall (num : Type) (A : JsArith num) (D : JsDiv num)
         (parserData : Z -> option FieldTable) (w : World num),
    isValidFormat parserData (parser w) = false ->
    fst (readCandle parserData w) = Throw TypeError
    /\ (fst (getNextCandle parserData w) = Throw AlreadyAtEndOfFile
        \/ fst (getNextCandle parserData w) = Throw TypeError)
    /\ (fst (getPrevCandle parserData w) = Throw AlreadyAtStartOfFile
        \/ fst (getPrevCandle parserData w) = Throw TypeError)
    /\ (forall n,
          fst (getCandleNumber parserData n w) = Throw FileTooSmall
          \/ fst (getCandleNumber parserData n w) = Throw TypeError)
    /\ (forall fuel date startDate i candle w',
          getCandleAt parserData fuel date startDate i w
          <> Some (Ok candle, w'))
    /\ (forall w', Reaches parserData w w' ->
                   isValidFormat parserData (parser w') = false).
Proof.
  intros num A D parserData w Hinvalid.
  assert (Hnone : forall w1 : World num,
             version (parser w1) = version (parser w) ->
             fst (readCandle parserData w1) = Throw TypeError).
  { intros w1 Hv. rewrite readCandle_unfold, Hv.
    unfold isValidFormat in Hinvalid.
    destruct (parserData (version (parser w))); [discriminate | reflexivity]. }
  split; [apply Hnone; reflexivity | ].
  split.
  { rewrite getNextCandle_unfold. destruct (_ <=? _).
    - right. apply Hnone. reflexivity.
    - left. reflexivity. }
  split.
  { rewrite getPrevCandle_unfold. destruct (_ >=? _).
    - right. apply Hnone. reflexivity.
    - left. reflexivity. }
  split.
  { intros n. rewrite getCandleNumber_unfold. destruct (num_ltb _ _).
    - right. apply Hnone. reflexivity.
    - left. reflexivity. }
  split.
  { intros fuel date startDate i candle w' Hrun.
    destruct (getCandleAt_returns parserData fuel date startDate i w w' candle
                Hrun) as (Hc & _).
    rewrite (Hnone w eq_refl) in Hc. discriminate. }
  intros w' Hreach.
  assert (Hh : same_header (parser w') (parser w)).
  { induction Hreach as [ | w1 Hr IH | w1 Hr IH | w1 n Hr IH
                          | w1 fuel date startDate i r Hr IH Hat].
    - apply same_header_refl.
    - eapply same_header_trans; [apply same_header_next | exact IH].
    - eapply same_header_trans; [apply same_header_prev | exact IH].
    - eapply same_header_trans; [apply same_header_number | exact IH].
    - apply (getCandleAt_keeps parserData
               (fun w2 => same_header (parser w2) (parser w))
               (fun n w2 Hw2 =>
                  same_header_trans _ _ _
                    (same_header_number parserData n w2) Hw2)
               fuel date startDate i w1 r IH Hat). }
  destruct Hh as (Hv & _). unfold isValidFormat in *. rewrite Hv.
  exact Hinvalid.
Qed.

Lemma unsupported_version_never_decodes_witness :
  isValidFormat sample_parserData (parser world999q) = false
  /\ fst (getNextCandle sample_parserData world999q) = Throw TypeError
  /\ cursor (snd (getNextCandle sample_parserData world999q))
     = (Qplus (inject_Z 0) (inject_Z 1), 148)
  /\ forall fuel date startDate i candle w',
       getCandleAt sample_parserData fuel date startDate i world999q
       <> Some (Ok candle, w').
Proof.
  assert (H1 : isValidFormat sample_parserData (parser world999q) = false)
    by reflexivity.
  split; [exact H1 | ]. split; [vm_compute; reflexivity | ].
  split; [vm_compute; reflexivity | ].
  destruct (unsupported_version_never_decodes Q ExactRational ExactRationalDiv
              sample_parserData world999q H1) as (_ & _ & _ & _ & Hat & _).
  exact Hat.
Defined.

(** ** The start time and the first candle *)

Section DateRoom.

Context {num : Type}.

(** A [date] field of a decode that returned had room for its four
    bytes. *)
Lemma date_field_room (parserData : Z -> option FieldTable) (w : World num)
  (entries : FieldTable) (candle : Candle) (key : string) (data : FieldData) :
  parserData (version (parser w)) = Some entries ->
  NoDup (map fst entries) ->
  fst (readCandle parserData w) = Ok candle ->
  In (key, data) entries ->
  is_defined (value data) = None ->
  type data = Some date ->
  (4 <= or_zero (size data))%N.
Proof.
  intros Htable Hnd Hrun Hin Hval Hty.
  assert (Hv : field_value (parser (clamped w)) data
               = Ok (get_property key candle))
    by (apply (readCandle_value parserData key data entries candle w);
        assumption).
  rewrite (field_value_read w data Hval), Hty in Hv.
  cbn [parserFunctions] in Hv.
  destruct (readInt32LE _) as [n|e] eqn:Hread; [ | discriminate].
  assert (Hl : (4 <= List.length
                      (overwrite (Buffer_alloc (or_zero (size data)))
                         (file_bytes (fd (parser w))
                            (Z.max 148 (byteOffset (parser w))
                             + Z.of_N (or_zero (position data)))
                            (or_zero (size data)))))%nat)
    by (apply readInt32LE_ok_iff; eexists; exact Hread).
  rewrite length_header_read in Hl. lia.
Qed.

End DateRoom.

(** X15. The constructor takes [start] from the four bytes at offset 148
    and always multiplies by 1000.  So on a freshly opened version-400
    file the first candle's [date] field at position 0 of the record is
    exactly [start], whereas for any other version that field holds the
    raw integer and [start] is 1000 times it. *)
Theorem start_and_first_candle :
  forall (num : Type) (A : JsArith num) (parserData : Z -> option FieldTable)
         (toString : Buffer -> string) (file : option (list byte))
         (w0 : World num) (entries : FieldTable) (key : string)
         (data : FieldData) (candle : Candle),
    constructor toString file = Ok w0 ->
    parserData (version (parser w0)) = Some entries ->
    NoDup (map fst entries) ->
    In (key, data) entries ->
    is_defined (value data) = None ->
    type data = Some date ->
    or_zero (position data) = 0%N ->
    fst (getNextCandle parserData w0) = Ok candle ->
    (version (parser w0) = 400 ->
     get_property key candle = VDate (start (parser w0)))
    /\ (version (parser w0) <> 400 ->
        exists raw,
          get_property key candle = VDate raw
          /\ start (parser w0) = raw * 1000).
Proof.
  intros num A parserData toString file w0 entries key data candle Hopen
    Htable Hnd Hin Hval Hty Hpos Hrun.
  destruct (constructor_initial_cursor_facts toString file w0 Hopen)
    as (Hsz & Hoff).
  assert (Hmin : 148 <= filesize (parser w0)).
  { destruct (on_boundary_open toString file w0 Hopen) as (_ & _ & Hm & _).
    exact Hm. }
  assert (Hstart : start (parser w0) = spec_int32_at (fd (parser w0)) 148 * 1000).
  { destruct file as [bytes|]; [ | discriminate].
    rewrite constructor_some in Hopen.
    destruct (_ <? 148); [discriminate | ]. cbv zeta in Hopen.
    destruct (spec_int32_at bytes 0 =? 400); injection Hopen as Hw; subst w0;
      reflexivity. }
  rewrite getNextCandle_unfold in Hrun.
  destruct (_ <=? _) eqn:E; [clear E | apply Z.leb_gt in E; lia].
  set (w1 := moved w0 (num_add (candleNumber (parser w0)) (of_Z 1))
               (byteOffset (parser w0) + candleByteSize (parser w0))) in *.
  assert (Htable1 : parserData (version (parser w1)) = Some entries)
    by exact Htable.
  pose proof (date_field_room parserData w1 entries candle key data Htable1 Hnd
                Hrun Hin Hval Hty) as Hroom.
  pose proof (readCandle_date key data Hval Hty Hroom parserData entries candle
                w1 Htable1 Hnd Hin Hrun) as Hfield.
  cbv beta zeta in Hfield. rewrite Hpos in Hfield.
  replace (Z.max 148 (byteOffset (parser w1)) + Z.of_N 0) with 148 in Hfield
    by (unfold w1, moved; cbn [parser byteOffset]; lia).
  change (fd (parser w1)) with (fd (parser w0)) in Hfield.
  change (version (parser w1)) with (version (parser w0)) in Hfield.
  split.
  - intros Hv. rewrite Hv in Hfield. rewrite Hfield, Hstart. reflexivity.
  - intros Hv. exists (spec_int32_at (fd (parser w0)) 148).
    split; [ | exact Hstart].
    destruct (version (parser w0) =? 400) eqn:Ev;
      [apply Z.eqb_eq in Ev; contradiction | exact Hfield].
Qed.

Lemma start_and_first_candle_witness :
  constructor (num := Z) ascii_toString (Some sample_file401) = Ok world401
  /\ sample_parserData (version (parser world401)) = Some layout401
  /\ NoDup (map fst layout401)
  /\ In ("timestamp"%string, read_field date 4 0) layout401
  /\ version (parser world401) <> 400
  /\ start (parser world401) = 1000000000000
  /\ exists candle,
       fst (getNextCandle sample_parserData world401) = Ok candle
       /\ get_property "timestamp" candle = VDate 1000000000.
Proof.
  assert (H1 : constructor (num := Z) ascii_toString (Some sample_file401)
               = Ok world401) by (vm_compute; reflexivity).
  assert (H2 : sample_parserData (version (parser world401)) = Some layout401)
    by reflexivity.
  assert (H3 : NoDup (map fst layout401)).
  { repeat constructor; cbn; intuition discriminate. }
  assert (H4 : In ("timestamp"%string, read_field date 4 0) layout401)
    by (left; reflexivity).
  assert (H5 : version (parser world401) <> 400) by (vm_compute; discriminate).
  split; [exact H1 | ]. split; [exact H2 | ]. split; [exact H3 | ].
  split; [exact H4 | ]. split; [exact H5 | ]. split; [reflexivity | ].
  destruct (fst (getNextCandle sample_parserData world401)) as [candle|e]
    eqn:Hrun; [ | vm_compute in Hrun; discriminate].
  exists candle. split; [reflexivity | ].
  destruct (start_and_first_candle Z IntegerIndex sample_parserData
              ascii_toString (Some sample_file401) world401 layout401
              "timestamp"%string (read_field date 4 0) candle H1 H2 H3 H4
              eq_refl eq_refl eq_refl Hrun) as (_ & Hraw).
  destruct (Hraw H5) as (raw & Hfield & Hstart).
  rewrite Hfield. f_equal.
  assert (Hs : start (parser world401) = 1000000000 * 1000) by reflexivity.
  rewrite Hs in Hstart. lia.
Defined.

(** ** The promise methods *)

(** X16. Each promise method has had its whole effect when it hands back
    its promise: the parser is left exactly as the synchronous method
    leaves it, nothing is thrown to the caller, and the promise is
    resolved with the candle the method returns or rejected with the
    error it throws.  [getCandleAtAsync(date)] always settles, within 51
    attempts, and can only resolve with the candle of the record under
    the cursor, whose time then is [date]. *)
Theorem promise_methods_settle :
  forall (num : Type) (A : JsArith num) (D : JsDiv num)
         (parserData : Z -> option FieldTable) (w : World num),
    (forall (sync : M num Candle) (async : M num (Promise Candle)),
        (sync = getNextCandle parserData
         /\ async = getNextCandleAsync parserData)
        \/ (sync = getPrevCandle parserData
            /\ async = getPrevCandleAsync parserData)
        \/ (exists n, sync = getCandleNumber parserData n
                      /\ async = getCandleNumberAsync parserData n) ->
        snd (async w) = snd (sync w)
        /\ (forall e, fst (async w) <> Throw e)
        /\ (forall candle,
              fst (async w) = Ok (Resolved candle) <-> fst (sync w) = Ok candle)
        /\ (forall e,
              fst (async w) = Ok (Rejected e) <-> fst (sync w) = Throw e))
    /\ (forall date,
          exists promise w',
            (forall extra,
                getCandleAtAsync parserData (51 + extra) date w
                = Some (Ok promise, w'))
            /\ (forall candle,
                  promise = Resolved candle ->
                  fst (readCandle parserData w) = Ok candle
                  /\ timestamp_getTime candle = Ok date)).
Proof.
  intros num A D parserData w. split.
  - assert (Hsettle : forall r : result Candle * World num,
               snd (settle r) = snd r
               /\ (forall e, fst (settle r) <> Throw e)
               /\ (forall candle,
                     fst (settle r) = Ok (Resolved candle) <-> fst r = Ok candle)
               /\ (forall e,
                     fst (settle r) = Ok (Rejected e) <-> fst r = Throw e)).
    { intros [[c|e0] w1]; cbn; repeat split; intros; try discriminate;
        congruence. }
    intros sync async [[Hs Ha] | [[Hs Ha] | (n & Hs & Ha)]]; subst sync async.
    + apply (Hsettle (getNextCandle parserData w)).
    + apply (Hsettle (getPrevCandle parserData w)).
    + apply (Hsettle (getCandleNumber parserData n w)).
  - intros date.
    destruct (getCandleAt_total parserData 51 date VUndefined 0 w)
      as [[r w'] Hr]; [cbn; lia | ].
    destruct r as [candle|e].
    + exists (Resolved candle), w'. split.
      * intros extra. unfold getCandleAtAsync.
        rewrite (getCandleAt_more_fuel parserData 51 date VUndefined 0%nat w
                   _ Hr extra). reflexivity.
      * intros c Hc. inversion Hc; subst c.
        destruct (getCandleAt_returns parserData 51 date VUndefined 0%nat w w'
                    candle Hr) as (H1 & H2 & _).
        split; assumption.
    + exists (Rejected e), w'. split.
      * intros extra. unfold getCandleAtAsync.
        rewrite (getCandleAt_more_fuel parserData 51 date VUndefined 0%nat w
                   _ Hr extra). reflexivity.
      * intros c Hc. discriminate.
Qed.

(** ** Search by date: the anchors *)

Section Anchors.

Context {num : Type} {A : JsArith num} {D : JsDiv num}.
Variable parserData : Z -> option FieldTable.

(** Two [getCandleNumber] calls in a row that both return have returned
    the same candle, whatever the two record numbers. *)
Lemma second_seek_same_candle (n m : num) (w w1 w2 : World num)
  (candle candle' : Candle) :
  getCandleNumber parserData n w = (Ok candle, w1) ->
  getCandleNumber parserData m w1 = (Ok candle', w2) ->
  candle' = candle.
Proof.
  intros Hfirst Hsecond.
  destruct (getCandleNumber_returns parserData n w w1 candle Hfirst)
    as (Hc & Hfd & Hv & Ho).
  destruct (getCandleNumber_returns parserData m w1 w2 candle' Hsecond)
    as (Hc' & _).
  rewrite (readCandle_same_place parserData w1 w) in Hc'; try assumption.
  - rewrite Hc in Hc'. inversion Hc'. reflexivity.
  - rewrite Ho. lia.
Qed.

End Anchors.

(** C4 on a five-record file whose fourth record is zeroed, opened, moved
    onto that record by four [getNextCandle] calls, and searched for the
    time of its first record.  The candidate is the zeroed record, so the
    search takes the branch for a zero timestamp and calls
    [getCandleNumber(Math.floor(4 / 2))].  The candle that call returns is
    the candidate again, not record 2 (time 1000007200 s), so the search
    goes on anchored on time 0 and ends in "File too small". *)
Theorem getCandleAt_zero_timestamp_anchor :
  let next := fun w => snd (getNextCandle sample_parserData w) in
  let w4 := next (next (next (next world400zq))) in
  let date := 1000000000000 in
  let seek :=
    getCandleNumber sample_parserData
      (num_add (candleNumber (parser w4))
         (candleOffset (parser w4) date (start (parser w4)))) w4 in
  let half :=
    num_floor (num_div (candleNumber (parser (snd seek))) (of_Z 2)) in
  let again := getCandleNumber sample_parserData half (snd seek) in
  constructor ascii_toString (Some sample_file400z) = Ok world400zq
  /\ cursor w4 = (inject_Z 4, 280)
  /\ half = inject_Z 2
  /\ spec_int32_at sample_file400z (148 + 2 * 44) * 1000 = 1000007200000
  /\ spec_int32_at sample_file400z 280 * 1000 = 0
  /\ (exists candle,
        fst seek = Ok candle
        /\ timestamp_getTime candle = Ok 0
        /\ fst again = Ok candle)
  /\ byteOffset (parser (snd again)) = 280
  /\ getCandleAt sample_parserData 2 date VUndefined 0 w4
     = getCandleAt sample_parserData 1 date (VDate 0) 1 (snd again)
  /\ exists w',
       getCandleAt sample_parserData 51 date VUndefined 0 w4
       = Some (Throw FileTooSmall, w').
Proof.
  cbv zeta.
  split; [vm_compute; reflexivity | ].
  split; [vm_compute; reflexivity | ].
  split; [vm_compute; reflexivity | ].
  split; [vm_compute; reflexivity | ].
  split; [vm_compute; reflexivity | ].
  split.
  { eexists. split; [vm_compute; reflexivity | ].
    split; vm_compute; reflexivity. }
  split; [vm_compute; reflexivity | ].
  split; [vm_compute; reflexivity | ].
  eexists. vm_compute. reflexivity.
Qed.

(** X17. [getCandleAt] always comes back: attempt [i] returns a candle or
    throws within [51 - i] nested calls, whatever the file, the target
    and the anchor.  The first seek is at [candleNumber] plus the target
    minus the anchor, in periods, the anchor being the [startDate] given
    or [this.start] when none is; an anchor that is not a date throws a
    type error, and a seek that throws ends the search.  When the
    candidate's time is the target it is returned at once; otherwise,
    below 50 attempts, the search calls itself with the attempt counter
    increased, anchored on the candidate's time when that is not zero;
    when it is zero it calls [getCandleNumber(Math.floor(candleNumber /
    2))], which returns the candidate again, and goes on anchored on time
    0; at 50 attempts it throws the candle-not-found error. *)
Theorem getCandleAt_terminates :
  forall (num : Type) (A : JsArith num) (D : JsDiv num)
         (parserData : Z -> option FieldTable)
         (date : Z) (startDate : jsval) (i : nat) (w : World num),
    (exists r, forall extra,
        getCandleAt parserData (S (50 - i) + extra) date startDate i w = Some r)
    /\ (forall fuel,
          (exists n, startDate = VNumber n)
          \/ (exists bits, startDate = VDouble bits) ->
          getCandleAt parserData (S fuel) date startDate i w
          = Some (Throw TypeError, w))
    /\ (forall fuel startTime,
          startDate = VDate startTime
          \/ (startDate = VUndefined /\ startTime = start (parser w)) ->
          let seek :=
            getCandleNumber parserData
              (num_add (candleNumber (parser w))
                 (candleOffset (parser w) date startTime)) w in
          let again :=
            getCandleNumber parserData
              (num_floor (num_div (candleNumber (parser (snd seek))) (of_Z 2)))
              (snd seek) in
          (forall e, fst seek = Throw e ->
             getCandleAt parserData (S fuel) date startDate i w
             = Some (Throw e, snd seek))
          /\ (forall candle e,
                fst seek = Ok candle -> timestamp_getTime candle = Throw e ->
                getCandleAt parserData (S fuel) date startDate i w
                = Some (Throw e, snd seek))
          /\ (forall candle ts,
                fst seek = Ok candle -> timestamp_getTime candle = Ok ts ->
                (ts = date ->
                 getCandleAt parserData (S fuel) date startDate i w
                 = Some (Ok candle, snd seek))
                /\ (ts <> date -> (i < 50)%nat -> ts <> 0 ->
                    getCandleAt parserData (S fuel) date startDate i w
                    = getCandleAt parserData fuel date (VDate ts) (S i)
                        (snd seek))
                /\ (ts <> date -> (i < 50)%nat -> ts = 0 ->
                    (forall e, fst again = Throw e ->
                       getCandleAt parserData (S fuel) date startDate i w
                       = Some (Throw e, snd again))
                    /\ (forall candle', fst again = Ok candle' ->
                          candle' = candle
                          /\ getCandleAt parserData (S fuel) date startDate i w
                             = getCandleAt parserData fuel date (VDate 0) (S i)
                                 (snd again)))
                /\ (ts <> date -> (50 <= i)%nat ->
                    getCandleAt parserData (S fuel) date startDate i w
                    = Some (Throw CandleNotFound, snd seek)))).
Proof.
  intros num A D parserData date startDate i w. split; [ | split].
  - destruct (getCandleAt_total parserData (S (50 - i)) date startDate i w)
      as [r Hr]; [lia | ].
    exists r. intros extra.
    apply (getCandleAt_more_fuel parserData (S (50 - i))). exact Hr.
  - intros fuel [[n Hn] | [bits Hb]]; subst startDate; reflexivity.
  - intros fuel startTime Hanchor seek again.
    assert (Hstart : getTime (parser w) startDate = Ok startTime).
    { destruct Hanchor as [Hd | [Hu Hs]]; subst; reflexivity. }
    cbn [getCandleAt]. rewrite Hstart. fold seek.
    destruct seek as [[candle0|e0] w1] eqn:Hseek; cbn [fst snd] in *.
    + split; [intros e He; discriminate | ].
      split.
      { intros candle e Hc Hts. inversion Hc; subst candle0.
        rewrite Hts. reflexivity. }
      intros candle ts Hc Hts. inversion Hc; subst candle0. rewrite Hts.
      rewrite (timestamp_property candle ts Hts).
      split; [ | split; [ | split]].
      * intros Heq. apply Z.eqb_eq in Heq. rewrite Heq. reflexivity.
      * intros Hne Hi Hnz. apply Z.eqb_neq in Hne, Hnz.
        apply Nat.ltb_lt in Hi. rewrite Hne, Hi, Hnz. reflexivity.
      * intros Hne Hi Hz. apply Z.eqb_neq in Hne. apply Z.eqb_eq in Hz.
        apply Nat.ltb_lt in Hi. rewrite Hne, Hi, Hz. cbn [andb negb].
        fold again.
        destruct again as [[candle2|e2] w2] eqn:Hagain; cbn [fst snd].
        -- split; [intros e He; discriminate | ].
           intros candle' Hc'. inversion Hc'; subst candle2.
           assert (Hsame : candle' = candle).
           { eapply second_seek_same_candle; [exact Hseek | exact Hagain]. }
           split; [exact Hsame | ].
           rewrite Hsame, (timestamp_property candle ts Hts).
           apply Z.eqb_eq in Hz. rewrite Hz. reflexivity.
        -- split.
           ++ intros e He. inversion He. reflexivity.
           ++ intros candle' Hc'. discriminate.
      * intros Hne Hi. apply Z.eqb_neq in Hne. apply Nat.ltb_ge in Hi.
        rewrite Hne, Hi. reflexivity.
    + split.
      { intros e He. inversion He. reflexivity. }
      split; [intros candle e Hc; discriminate | ].
      intros candle ts Hc. discriminate.
Qed.

Lemma getCandleAt_terminates_witness :
  let first := getCandleNumber sample_parserData
                 (num_add (candleNumber (parser world400q))
                    (candleOffset (parser world400q) 1000000000000
                       (start (parser world400q)))) world400q in
  (exists candle,
      fst first = Ok candle
      /\ timestamp_getTime candle = Ok 1000000000000
      /\ getCandleAt sample_parserData 1 1000000000000 VUndefined 0 world400q
         = Some (Ok candle, snd first))
  /\ exists r,
       getCandleAt sample_parserData 51 1000000000001 VUndefined 0 world400q
       = Some r.
Proof.
  cbv zeta.
  destruct (getCandleAt_terminates Q ExactRational ExactRationalDiv
              sample_parserData 1000000000000 VUndefined 0%nat world400q)
    as (_ & _ & Hstep).
  specialize (Hstep 0%nat (start (parser world400q))
                (or_intror (conj eq_refl eq_refl))).
  cbv zeta in Hstep. destruct Hstep as (_ & _ & Hfound).
  split.
  - destruct (fst (getCandleNumber sample_parserData
                (num_add (candleNumber (parser world400q))
                   (candleOffset (parser world400q) 1000000000000
                      (start (parser world400q)))) world400q))
      as [candle|e] eqn:Hseek; [ | vm_compute in Hseek; discriminate].
    exists candle.
    assert (Hts : timestamp_getTime candle = Ok 1000000000000).
    { vm_compute in Hseek. inversion Hseek. reflexivity. }
    split; [reflexivity | ]. split; [exact Hts | ].
    destruct (Hfound candle 1000000000000 eq_refl Hts) as (Hhit & _).
    exact (Hhit eq_refl).
  - destruct (getCandleAt_terminates Q ExactRational ExactRationalDiv
                sample_parserData 1000000000001 VUndefined 0%nat world400q)
      as ((r & Hr) & _).
    exists r. exact (Hr 0%nat).
Defined.
